(** * BGground: video/audio to text pipelines

    A shallow embedding of [video_to_text.py] (the Google Speech Recognition
    pipeline with explicit 30-second chunking), of [transcribe.py] (the
    Whisper pipeline) and of [batch_convert.py] (one conversion per matching
    file of a directory), together with the properties of the chunk loop, of
    the document assembly and of the temporary-file handling.

    External collaborators (moviepy, pydub, speech_recognition, whisper,
    python-docx, the file system) are modelled by the outcomes the code can
    observe from them: a value, or a raised exception. *)

From Stdlib Require Import ZArith QArith Qround Qminmax Lqa String Ascii List Lia Bool DecimalString.
From stdpp Require Import gmap strings list stringmap.
Import ListNotations.

Local Open Scope string_scope.

(** ** Python values shared by the scripts *)

(** A [string] stands for a Python [str] all of whose code points are below
    256, one character per code point (it is not a UTF-8 encoding); texts
    with other code points are outside the model. *)

Module Py.

(** [except Exception] catches every constructor below; [KeyboardInterrupt]
    and [SystemExit] are not [Exception]s and are not modelled. *)
Inductive exn : Type :=
| UnknownValueError                 (* sr.UnknownValueError *)
| RequestError (msg : string)       (* sr.RequestError *)
| ValueError (msg : string)
| AttributeError (msg : string)
| FileNotFoundError (msg : string)
| OSError (msg : string).           (* IOError, PermissionError, ... *)

Inductive result (A : Type) : Type :=
| Ok (a : A)
| Raise (e : exn).
Arguments Ok {A} a.
Arguments Raise {A} e.

(** Truthiness of a [str]: [if text:] / [if not text:]. *)
Definition truthy (s : string) : bool :=
  match s with
  | EmptyString => false
  | String _ _ => true
  end.

(** [sep.join(parts)] *)
Fixpoint join (sep : string) (parts : list string) : string :=
  match parts with
  | [] => ""
  | [p] => p
  | p :: rest => p ++ sep ++ join sep rest
  end.

(** [str.isspace] on one code point of the Latin-1 range. *)
Definition is_space (c : ascii) : bool :=
  let n := nat_of_ascii c in
  ((9 <=? n) && (n <=? 13) || (28 <=? n) && (n <=? 32)
   || (n =? 133) || (n =? 160))%nat.

Fixpoint lstrip (s : string) : string :=
  match s with
  | EmptyString => EmptyString
  | String c s' => if is_space c then lstrip s' else s
  end.

(** [rstrip] keeps a character when it is not a space or when something
    is kept to its right. *)
Fixpoint rstrip (s : string) : string :=
  match s with
  | EmptyString => EmptyString
  | String c s' =>
      match rstrip s' with
      | EmptyString => if is_space c then EmptyString else String c EmptyString
      | r => String c r
      end
  end.

(** [s.strip()] *)
Definition strip (s : string) : string := rstrip (lstrip s).

Fixpoint rev_string (s : string) : string :=
  match s with
  | EmptyString => EmptyString
  | String c s' => rev_string s' ++ String c EmptyString
  end.

(** [s.endswith(suffix)] *)
Definition endswith (s suffix : string) : bool :=
  String.prefix (rev_string suffix) (rev_string s).

(** [s.split(sep)] for a non-empty [sep]: leftmost, non-overlapping
    occurrences of [sep] cut the string; [skip] counts the characters of a
    matched separator still to be passed over, [cur] is the piece being
    collected. *)
Fixpoint split_go (sep s : string) (skip : nat) (cur : string) : list string :=
  match s with
  | EmptyString => [cur]
  | String c s' =>
      match skip with
      | S k => split_go sep s' k cur
      | O =>
          if String.prefix sep s
          then cur :: split_go sep s' (String.length sep - 1) ""
          else split_go sep s' 0 (cur ++ String c EmptyString)
      end
  end.

Definition split (s sep : string) : list string := split_go sep s 0 "".

(** [s.lower()] on the Latin-1 range. *)
Definition lower_char (c : ascii) : ascii :=
  let n := nat_of_ascii c in
  if ((65 <=? n) && (n <=? 90)
      || (192 <=? n) && (n <=? 222) && negb (n =? 215))%nat
  then ascii_of_nat (n + 32)
  else c.

Fixpoint lower (s : string) : string :=
  match s with
  | EmptyString => EmptyString
  | String c s' => String (lower_char c) (lower s')
  end.

(** [PurePath.name]: the last component of a path already in the form
    [str(Path(...))] gives it; the path ["."] has no name. *)
Definition path_name (p : string) : string :=
  if String.eqb p "." then "" else List.last (split p "/") "".

(** [PurePath.suffix]: [i = name.rfind('.')], and [name[i:]] when
    [0 < i < len(name) - 1], else the empty string. *)
Definition path_suffix (p : string) : string :=
  let name := path_name p in
  match split name "." with
  | [] | [_] => ""
  | pieces =>
      let ext := List.last pieces "" in
      if truthy ext && (S (String.length ext) <? String.length name)%nat
      then "." ++ ext
      else ""
  end.

(** [PurePath.with_suffix(suffix)]; a path with an empty name raises
    [ValueError]. *)
Definition with_suffix (p suffix : string) : result string :=
  if truthy (path_name p)
  then Ok (String.substring 0 (String.length p - String.length (path_suffix p)) p
           ++ suffix)
  else Raise (ValueError "path has an empty name").

End Py.

Import Py.

(** ** The chunked transcriber of [video_to_text.py] *)

Module Transcriber.

(** What the loop does to the outside world, in order: the two calls on
    the recognizer and the per-chunk messages it prints when it skips. *)
Inductive event (AudioData : Type) : Type :=
| RecordCall (duration : Q) (offset : Z)
| RecognizeCall (audio_chunk : AudioData) (language : string)
| Skipped (chunk_num : Z) (reason : exn).
Arguments RecordCall {AudioData} duration offset.
Arguments RecognizeCall {AudioData} audio_chunk language.
Arguments Skipped {AudioData} chunk_num reason.

(** The locals of the [while] loop, and the trace of its effects. *)
Record loop_state (AudioData : Type) : Type := mk_state {
  offset : Z;
  chunk_num : Z;
  full_text : list string;
  trace : list (event AudioData)
}.
Arguments mk_state {AudioData} offset chunk_num full_text trace.
Arguments offset {AudioData} l.
Arguments chunk_num {AudioData} l.
Arguments full_text {AudioData} l.
Arguments trace {AudioData} l.

Definition placeholder : string := "[No speech detected in audio]".

(** [offset < audio_duration], an [int] compared with a [float]. *)
Definition Qltb (x y : Q) : bool :=
  match (x ?= y)%Q with
  | Lt => true
  | _ => false
  end.

Section Loop.
Context {AudioData : Type}.

(** [self.recognizer.record(source, duration=..., offset=...)] *)
Variable record : Q -> Z -> result AudioData.
(** [self.recognizer.recognize_google(chunk, language=..., show_all=False)] *)
Variable recognize_google : AudioData -> string -> result string.
(** [self.language] *)
Variable language : string.
(** [source.DURATION] *)
Variable audio_duration : Q.
(** [chunk_duration]; the script fixes it to 30 seconds. *)
Variable chunk_duration : Z.

(** [min(chunk_duration, audio_duration - offset)]; on a tie Python's
    [min] returns its first argument, and so does [Qmin]. *)
Definition requested_duration (offset : Z) : Q :=
  Qmin (inject_Z chunk_duration) (audio_duration - inject_Z offset).

(** [offset += chunk_duration; chunk_num += 1] *)
Definition advance (st : loop_state AudioData) (texts : list string)
    (evs : list (event AudioData)) : loop_state AudioData :=
  mk_state (offset st + chunk_duration) (chunk_num st + 1)
           (full_text st ++ texts) (trace st ++ evs).

(** One iteration of the [while] body, lines 106-141. *)
Definition loop_body (st : loop_state AudioData) : loop_state AudioData :=
  let duration := requested_duration (offset st) in
  let rec_ev := RecordCall duration (offset st) in
  match record duration (offset st) with
  | Ok audio_chunk =>
      let call_ev := RecognizeCall audio_chunk language in
      match recognize_google audio_chunk language with
      | Ok text =>
          if truthy text
          then advance st [text] [rec_ev; call_ev]
          else advance st [] [rec_ev; call_ev]
      | Raise UnknownValueError =>
          (* except sr.UnknownValueError *)
          advance st [] [rec_ev; call_ev; Skipped (chunk_num st) UnknownValueError]
      | Raise (RequestError msg) =>
          (* except sr.RequestError *)
          advance st [] [rec_ev; call_ev; Skipped (chunk_num st) (RequestError msg)]
      | Raise e =>
          (* except Exception: ...; continue *)
          advance st [] [rec_ev; call_ev; Skipped (chunk_num st) e]
      end
  | Raise e =>
      (* except Exception: ...; continue *)
      advance st [] [rec_ev; Skipped (chunk_num st) e]
  end.

(** [while offset < audio_duration: ...]; [None] when the fuel runs out
    before the condition becomes false. *)
Fixpoint while_loop (fuel : nat) (st : loop_state AudioData)
    : option (loop_state AudioData) :=
  if Qltb (inject_Z (offset st)) audio_duration
  then match fuel with
       | O => None
       | S fuel' => while_loop fuel' (loop_body st)
       end
  else Some st.

(** [offset = 0; chunk_num = 1; full_text = []] *)
Definition initial_state : loop_state AudioData := mk_state 0 1 [] [].

(** Lines 147-154. *)
Definition combine (full_text : list string) : string :=
  let transcribed_text := join " " full_text in
  if truthy transcribed_text then transcribed_text else placeholder.

End Loop.

(** The recognizer and the audio file, as [transcribe_audio] sees them.
    [record] is the outcome of the call the loop makes with these
    arguments.  The loop makes one call per offset, so this also covers a
    recognizer whose read depends on where the earlier reads left the
    stream of the open source (the library's [record] skips [offset]
    seconds from the current position of the stream): what a chunk holds is
    the backend's business, the loop decides only what is asked for. *)
Record backend (AudioData : Type) : Type := mk_backend {
  (** [sr.AudioFile(audio_path).__enter__()] and [source.DURATION] *)
  open_source : result Q;
  record : Q -> Z -> result AudioData;
  recognize_google : AudioData -> string -> result string
}.
Arguments mk_backend {AudioData} open_source record recognize_google.
Arguments open_source {AudioData} b.
Arguments record {AudioData} b _ _.
Arguments recognize_google {AudioData} b _ _.

(** [transcribe_audio] with the chunk length as a parameter.  The outer
    [except Exception: ...; raise] re-raises what opening the source
    raised; nothing raised inside the loop body reaches it. *)
Definition transcribe_audio_with {AudioData : Type} (chunk_duration : Z)
    (be : backend AudioData) (language : string) (fuel : nat)
    : option (result string * list (event AudioData)) :=
  match open_source be with
  | Raise e => Some (Raise e, [])
  | Ok audio_duration =>
      match while_loop (record be) (recognize_google be) language
              audio_duration chunk_duration fuel initial_state with
      | None => None
      | Some st => Some (Ok (combine (full_text st)), trace st)
      end
  end.

(** [chunk_duration = 30  # seconds] *)
Definition chunk_duration : Z := 30.

Definition transcribe_audio {AudioData : Type} :=
  @transcribe_audio_with AudioData chunk_duration.

End Transcriber.

(** ** Document assembly: [VideoToTextConverter.create_docx] *)

Module Docx.

(** The part of python-docx's object model that [create_docx] touches. *)
Inductive alignment : Type := CENTER.

Inductive style : Type :=
| Normal
| Title                 (* add_heading(text, 0) *)
| Heading (level : Z).  (* add_heading(text, level) *)

Record run : Type := mk_run {
  run_text : string;
  bold : bool;
  italic : bool;
  font_name : option string;
  font_size : option Z     (* Pt *)
}.

Record paragraph : Type := mk_paragraph {
  par_style : style;
  par_alignment : option alignment;
  runs : list run
}.

Definition document : Type := list paragraph.

Definition plain_run (text : string) : run := mk_run text false false None None.

(** [paragraph.add_run(text)] *)
Definition add_run (p : paragraph) (r : run) : paragraph :=
  mk_paragraph (par_style p) (par_alignment p) (runs p ++ [r]).

(** [doc.add_paragraph(text)]: a run is added only for a non-empty text. *)
Definition new_paragraph (text : string) : paragraph :=
  mk_paragraph Normal None (if truthy text then [plain_run text] else []).

(** [doc.add_heading(text, level)] *)
Definition new_heading (text : string) (level : Z) : paragraph :=
  mk_paragraph (if (level =? 0)%Z then Title else Heading level) None
               (if truthy text then [plain_run text] else []).

(** [paragraph.text] *)
Definition paragraph_text (p : paragraph) : string :=
  fold_right (fun r acc => run_text r ++ acc) "" (runs p).

Definition set_alignment (a : alignment) (p : paragraph) : paragraph :=
  mk_paragraph (par_style p) (Some a) (runs p).

(** [for run in p.runs: run.font.name = 'Calibri'; run.font.size = Pt(11)] *)
Definition set_font (p : paragraph) : paragraph :=
  mk_paragraph (par_style p) (par_alignment p)
    (map (fun r => mk_run (run_text r) (bold r) (italic r) (Some "Calibri") (Some 11%Z))
         (runs p)).

Definition labelled (label value : string) : paragraph :=
  add_run (add_run (new_paragraph "") (mk_run label true false None None))
          (plain_run value).

(** ['_' * 80] *)
Fixpoint repeat_char (c : ascii) (n : nat) : string :=
  match n with
  | O => EmptyString
  | S n' => String c (repeat_char c n')
  end.

Definition separator : paragraph := new_paragraph (repeat_char "_"%char 80).

(** The [for i, para in enumerate(paragraphs)] loop, lines 196-205;
    [len] is [len(paragraphs)] and [i] the index of the head of [rest]. *)
Fixpoint body_loop (len i : nat) (rest : list string) : list paragraph :=
  match rest with
  | [] => []
  | para :: rest' =>
      ((if truthy (strip para)
        then
          let p := new_paragraph (strip para) in
          let p := if (i <? len - 1)%nat && negb (endswith para ".")
                   then add_run p (plain_run ".")
                   else p in
          [set_font p]
        else [])
       ++ body_loop len (S i) rest')%list
  end.

(** Lines 193-205. *)
Definition body_paragraphs (transcribed_text : string) : list paragraph :=
  let paragraphs := split transcribed_text ". " in
  body_loop (List.length paragraphs) 0 paragraphs.

(** Lines 168-190. *)
Definition front_matter (video_name now language : string) : list paragraph :=
  [ set_alignment CENTER (new_heading "Video Transcription" 0);
    new_paragraph "";
    labelled "Source Video: " video_name;
    labelled "Transcription Date: " now;
    labelled "Language: " language;
    separator;
    new_heading "Transcription Text" 1 ].

(** Lines 207-212. *)
Definition footer : list paragraph :=
  [ new_paragraph "";
    separator;
    set_alignment CENTER
      (add_run (new_paragraph "")
               (mk_run "Generated by Video to Text Converter" false true None None)) ].

(** The document object built by [create_docx] before [doc.save]. *)
Definition build_document (video_name now language transcribed_text : string)
    : document :=
  (front_matter video_name now language
   ++ body_paragraphs transcribed_text
   ++ footer)%list.

(** python-docx writes its texts through lxml, which refuses a text that
    holds a NUL or a control character other than tab, newline and carriage
    return. *)
Definition xml_char (c : ascii) : bool :=
  let n := nat_of_ascii c in
  ((32 <=? n) || (n =? 9) || (n =? 10) || (n =? 13))%nat.

Fixpoint xml_compatible (s : string) : bool :=
  match s with
  | EmptyString => true
  | String c s' => xml_char c && xml_compatible s'
  end.

(** The texts of a document are all accepted. *)
Definition accepted (doc : document) : bool :=
  forallb (fun p => forallb (fun r => xml_compatible (run_text r)) (runs p)) doc.

(** What [add_heading], [add_paragraph] and [add_run] raise on a text that
    is refused. *)
Definition rejected_text : exn :=
  ValueError
    "All strings must be XML compatible: Unicode or ASCII, no NULL bytes or control characters".

(** [create_docx]: build, then [doc.save(str(self.output_path))].  The
    document lives in memory until it is saved, so the method raises
    [ValueError] exactly when one of the texts it adds is refused, in which
    case [doc.save] is not reached; otherwise it raises what [doc.save]
    raises. *)
Definition create_docx (save : document -> string -> result unit)
    (video_name now language output_path transcribed_text : string)
    : result document :=
  let doc := build_document video_name now language transcribed_text in
  if accepted doc
  then match save doc output_path with
       | Ok _ => Ok doc
       | Raise e => Raise e
       end
  else Raise rejected_text.

End Docx.

(** ** The media libraries, as far as the scripts depend on them *)

Module Media.

(** moviepy: the audio of a clip, and a clip ([video.audio] is [None]
    for a file without an audio track). *)
Record AudioClip : Type := mk_clip { fps : Z; nchannels : Z }.
Record VideoFileClip : Type := mk_video { audio : option AudioClip }.

(** pydub *)
Record AudioSegment : Type := mk_segment {
  frame_rate : Z;
  channels : Z;
  sample_width : Z
}.

(** A waveform file on disk. *)
Record wav : Type := mk_wav {
  wav_rate : Z;       (* Hz *)
  wav_channels : Z;
  wav_width : Z       (* bytes per sample *)
}.

Inductive file : Type :=
| WavFile (w : wav)
| DocxFile (d : Docx.document)
| OtherFile.          (* the input media, a temporary file not yet written *)

(** The value following option [name] in an ffmpeg argument list. *)
Fixpoint ffmpeg_option (params : list string) (name : string) : option Z :=
  match params with
  | [] => None
  | k :: rest =>
      match rest with
      | v :: _ =>
          if String.eqb k name
          then option_map Z.of_uint (DecimalString.NilZero.uint_of_string v)
          else ffmpeg_option rest name
      | [] => None
      end
  end.

Definition codec_width (codec : string) : Z :=
  if String.eqb codec "pcm_s32le" then 4 else 2.

(** [AudioClip.write_audiofile(filename, fps=None, codec=..., ffmpeg_params=...)]:
    the samples are written at [fps], which defaults to the clip's own rate
    and to 44100 when the clip has none; [ffmpeg_params] are output options
    and come last on the ffmpeg command line. *)
Definition write_audiofile (clip : AudioClip) (fps_arg : option Z)
    (codec : string) (ffmpeg_params : list string) : wav :=
  let rate :=
    match fps_arg with
    | Some f => f
    | None => if (fps clip =? 0)%Z then 44100%Z else fps clip
    end in
  mk_wav (default rate (ffmpeg_option ffmpeg_params "-ar"))
         (default (nchannels clip) (ffmpeg_option ffmpeg_params "-ac"))
         (codec_width codec).

(** [AudioSegment.set_frame_rate], [set_channels], [export(format="wav")] *)
Definition set_frame_rate (r : Z) (a : AudioSegment) : AudioSegment :=
  mk_segment r (channels a) (sample_width a).
Definition set_channels (c : Z) (a : AudioSegment) : AudioSegment :=
  mk_segment (frame_rate a) c (sample_width a).
Definition export_wav (a : AudioSegment) : wav :=
  mk_wav (frame_rate a) (channels a) (sample_width a).

End Media.

(** ** Jobs: file system, temporary files and the two orchestrators *)

Module Jobs.
Import Media.

(** The files that exist, the temporary files created and the paths
    removed so far (both in order), and [self.temp_audio_path] of the
    [VideoToTextConverter]. *)
Record state : Type := mk_st {
  files : gmap string file;
  created : list string;
  removed : list string;
  temp_audio_path : option string
}.

(** What the environment answers. *)
Record world (AudioData : Type) : Type := mk_world {
  (** [tempfile.mkstemp] / [NamedTemporaryFile]: a name that is not in use *)
  temp_name : string -> gmap string file -> string;
  temp_name_fresh : forall suffix fs, fs !! temp_name suffix fs = None;
  (** [VideoFileClip(str(path))] *)
  open_video : string -> result VideoFileClip;
  (** the error, if any, of writing a file at a path *)
  write_error : string -> option exn;
  (** [AudioSegment.from_file(path)] *)
  from_file : string -> result AudioSegment;
  (** the error, if any, of [os.remove] / [Path.unlink] on an existing path *)
  remove_error : string -> option exn;
  (** [sr.AudioFile(path)] with the recognizer *)
  recognizer : string -> Transcriber.backend AudioData;
  (** [whisper.load_model(model_size).transcribe(path)["text"]]; the
      directory in which the library keeps downloaded models is not part
      of the modelled file system *)
  whisper_text : string -> string -> result string;
  (** [datetime.now().strftime(...)] *)
  now : string
}.
Arguments temp_name {AudioData} w _ _.
Arguments temp_name_fresh {AudioData} w _ _.
Arguments open_video {AudioData} w _.
Arguments write_error {AudioData} w _.
Arguments from_file {AudioData} w _.
Arguments remove_error {AudioData} w _.
Arguments recognizer {AudioData} w _.
Arguments whisper_text {AudioData} w _ _.
Arguments now {AudioData} w.

(** Computations on the state that return, raise, or (out of fuel in the
    chunk loop) give no answer. *)
Definition M (A : Type) : Type := state -> option (result A * state).

Definition ret {A} (a : A) : M A := fun s => Some (Ok a, s).
Definition raise {A} (e : exn) : M A := fun s => Some (Raise e, s).
Definition lift {A} (r : result A) : M A := fun s => Some (r, s).

Definition bind {A B} (m : M A) (k : A -> M B) : M B :=
  fun s =>
    match m s with
    | None => None
    | Some (Ok a, s') => k a s'
    | Some (Raise e, s') => Some (Raise e, s')
    end.

(** [try: m finally: fin]: [fin] always runs; what it raises replaces the
    outcome of [m]. *)
Definition try_finally {A} (m : M A) (fin : M unit) : M A :=
  fun s =>
    match m s with
    | None => None
    | Some (r, s') =>
        match fin s' with
        | None => None
        | Some (Ok _, s'') => Some (r, s'')
        | Some (Raise e, s'') => Some (Raise e, s'')
        end
    end.

(** [try: m except Exception as e: handler(e)] *)
Definition try_except {A} (m : M A) (handler : exn -> M A) : M A :=
  fun s =>
    match m s with
    | Some (Raise e, s') => handler e s'
    | other => other
    end.

Notation "'let!' x ':=' m 'in' k" := (bind m (fun x => k))
  (at level 10, x name, m at level 100, k at level 200).
Notation "'do!' m 'in' k" := (bind m (fun _ => k))
  (at level 10, m at level 100, k at level 200).

(** [Path.exists] / [os.path.exists] *)
Definition path_exists (p : string) : M bool :=
  fun s => Some (Ok (bool_decide (is_Some (files s !! p))), s).

Section Primitives.
Context {AudioData : Type} (w : world AudioData).

(** A new, empty temporary file that is kept ([delete=False]). *)
Definition create_temp (suffix : string) : M string :=
  fun s =>
    let p := temp_name w suffix (files s) in
    Some (Ok p, mk_st (<[p := OtherFile]> (files s)) (created s ++ [p])
                      (removed s) (temp_audio_path s)).

Definition write_file (p : string) (f : file) : M unit :=
  fun s =>
    match write_error w p with
    | Some e => Some (Raise e, s)
    | None => Some (Ok tt, mk_st (<[p := f]> (files s)) (created s)
                                 (removed s) (temp_audio_path s))
    end.

(** [os.remove(p)] / [Path(p).unlink()] *)
Definition remove_file (p : string) : M unit :=
  fun s =>
    match files s !! p with
    | None => Some (Raise (FileNotFoundError p), s)
    | Some _ =>
        match remove_error w p with
        | Some e => Some (Raise e, s)
        | None => Some (Ok tt, mk_st (delete p (files s)) (created s)
                                     (removed s ++ [p]) (temp_audio_path s))
        end
    end.
End Primitives.

(** *** [video_to_text.py]: [VideoToTextConverter] *)

Record converter : Type := mk_converter {
  video_path : string;
  output_path : string;
  language : string
}.

Section VideoToText.
Context {AudioData : Type} (w : world AudioData).

(** [__init__]; [self.temp_audio_path = None]. *)
Definition init (video : string) (output : option string) (lang : string)
    : M converter :=
  let! present := path_exists video in
  if negb present
  then raise (FileNotFoundError ("Video file not found: " ++ video)%string)
  else
    let! out :=
      match output with
      | Some o => if truthy o then ret o else lift (with_suffix video ".docx")
      | None => lift (with_suffix video ".docx")
      end in
    fun s => Some (Ok (mk_converter video out lang),
                   mk_st (files s) (created s) (removed s) None).

Definition set_temp_audio_path (p : string) : M unit :=
  fun s => Some (Ok tt, mk_st (files s) (created s) (removed s) (Some p)).

Definition get_temp_audio_path : M (option string) :=
  fun s => Some (Ok (temp_audio_path s), s).

(** [extract_audio]; its [except Exception: print; raise] re-raises. *)
Definition extract_audio (self : converter) : M string :=
  try_except
    (let! video := lift (open_video w (video_path self)) in
     let! temp := create_temp w ".wav" in
     do! set_temp_audio_path temp in
     match audio video with
     | None => raise (ValueError "No audio track found in video file")
     | Some a =>
         do! write_file w temp
               (WavFile (write_audiofile a None "pcm_s16le" ["-ac"; "1"])) in
         ret temp
     end)
    (fun e => raise e).

(** [transcribe_audio(audio_path)]: the chunk loop on the recognizer
    opened on [audio_path]. *)
Definition transcribe_audio (self : converter) (fuel : nat)
    (audio_path : string) : M string :=
  fun s =>
    match Transcriber.transcribe_audio (recognizer w audio_path)
            (language self) fuel with
    | None => None
    | Some (r, _) => Some (r, s)
    end.

(** [create_docx(transcribed_text)] *)
Definition create_docx (self : converter) (transcribed_text : string) : M unit :=
  fun s =>
    match Docx.create_docx
            (fun _ p => match write_error w p with
                        | Some e => Raise e
                        | None => Ok tt
                        end)
            (path_name (video_path self)) (now w) (language self)
            (output_path self) transcribed_text with
    | Raise e => Some (Raise e, s)
    | Ok doc =>
        Some (Ok tt, mk_st (<[output_path self := DocxFile doc]> (files s))
                           (created s) (removed s) (temp_audio_path s))
    end.

(** The [finally] block of [convert], lines 246-253. *)
Definition cleanup : M unit :=
  let! temp := get_temp_audio_path in
  match temp with
  | None => ret tt
  | Some p =>
      if truthy p
      then
        let! present := path_exists p in
        if present
        then try_except (remove_file w p) (fun _ => ret tt)
        else ret tt
      else ret tt
  end.

(** [convert] *)
Definition convert (self : converter) (fuel : nat) : M string :=
  try_finally
    (try_except
       (let! audio_path := extract_audio self in
        let! transcribed_text := transcribe_audio self fuel audio_path in
        do! create_docx self transcribed_text in
        ret (output_path self))
       (fun e => raise e))
    cleanup.

(** [main]: the exit status. *)
Definition main (video : string) (output : option string) (lang : string)
    (fuel : nat) : M Z :=
  try_except
    (let! converter := init video output lang in
     do! convert converter fuel in
     ret 0%Z)
    (fun _ => ret 1%Z).

End VideoToText.

(** *** [transcribe.py]: the Whisper pipeline *)

Module Whisper.
Section Whisper.
Context {AudioData : Type} (w : world AudioData).

Definition audio_suffixes : list string :=
  [".wav"; ".mp3"; ".m4a"; ".aac"; ".flac"; ".ogg"].

(** [ensure_audio] *)
Definition ensure_audio (input_path : string) : M string :=
  let suffix := lower (path_suffix input_path) in
  if existsb (String.eqb suffix) audio_suffixes
  then ret input_path
  else
    let! audio_path := create_temp w ".wav" in
    let! clip := lift (open_video w input_path) in
    match audio clip with
    | None =>
        raise (AttributeError
                 "'NoneType' object has no attribute 'write_audiofile'")
    | Some a =>
        do! write_file w audio_path
              (WavFile (write_audiofile a None "pcm_s16le" [])) in
        ret audio_path
    end.

(** [normalise_audio] *)
Definition normalise_audio (input_path : string) : M string :=
  let! audio := lift (from_file w input_path) in
  let audio := set_channels 1 (set_frame_rate 16000 audio) in
  let! output_path := create_temp w ".wav" in
  do! write_file w output_path (WavFile (export_wav audio)) in
  ret output_path.

(** [transcribe_audio] *)
Definition transcribe_audio (audio_path model_size : string) : M string :=
  let! text := lift (whisper_text w model_size audio_path) in
  ret (strip text).

(** [save_to_docx]; [add_paragraph] raises on a paragraph that is refused,
    before anything is saved. *)
Definition save_to_docx (text output_path : string) : M unit :=
  let document := map Docx.new_paragraph (split text "

") in
  if Docx.accepted document
  then write_file w output_path (DocxFile document)
  else raise Docx.rejected_text.

(** How [main] ends when nothing is raised: it returns, or
    [sys.exit(1)] for a missing input. *)
Inductive ending : Type := Returned | Exited (code : Z).

(** [main], with the parsed arguments. *)
Definition main (input : string) (model : string) (output : option string)
    : M ending :=
  let! present := path_exists input in
  if negb present
  then ret (Exited 1)
  else
    let! audio_source := ensure_audio input in
    let! normalised_audio := normalise_audio audio_source in
    let! text :=
      try_finally
        (transcribe_audio normalised_audio model)
        (let! source_present := path_exists audio_source in
         do! (if negb (String.eqb audio_source input) && source_present
              then remove_file w audio_source
              else ret tt) in
         let! normalised_present := path_exists normalised_audio in
         if normalised_present
         then remove_file w normalised_audio
         else ret tt) in
    let! output_path :=
      match output with
      | Some o => ret o
      | None => lift (with_suffix input ".docx")
      end in
    do! save_to_docx text output_path in
    ret Returned.

End Whisper.
End Whisper.

End Jobs.

(** ** The chunk plan the specification describes *)

Module Chunks.
Import Transcriber.

(** [ceil(D / C)] chunks, at offsets [0, C, 2C, ...]. *)
Definition n_chunks (D : Q) (C : Z) : nat :=
  Z.to_nat (Qceiling (D / inject_Z C)).

Definition offsets_from (C start : Z) (n : nat) : list Z :=
  map (fun i => (start + Z.of_nat i * C)%Z) (seq 0 n).

Definition chunk_offsets (D : Q) (C : Z) : list Z :=
  offsets_from C 0 (n_chunks D C).

Section Outcome.
Context {AudioData : Type} (be : backend AudioData) (language : string).
Variables (D : Q) (C : Z).

(** The chunk read at an offset, when the read does not raise. *)
Definition chunk_read (off : Z) : option AudioData :=
  match record be (requested_duration D C off) off with
  | Ok a => Some a
  | Raise _ => None
  end.

(** The non-empty text recognized in the chunk at an offset. *)
Definition chunk_text (off : Z) : option string :=
  match chunk_read off with
  | Some a =>
      match recognize_google be a language with
      | Ok t => if truthy t then Some t else None
      | Raise _ => None
      end
  | None => None
  end.
End Outcome.

(** The calls found in a trace, in order. *)
Definition record_calls {AudioData : Type} (tr : list (event AudioData))
    : list (Q * Z) :=
  omap (fun e => match e with
                 | RecordCall d o => Some (d, o)
                 | _ => None
                 end) tr.

Definition recognize_calls {AudioData : Type} (tr : list (event AudioData))
    : list (AudioData * string) :=
  omap (fun e => match e with
                 | RecognizeCall a l => Some (a, l)
                 | _ => None
                 end) tr.

(** The body of the loop run [k] times in a row. *)
Fixpoint iterate {A : Type} (body : A -> A) (k : nat) (st : A) : A :=
  match k with
  | O => st
  | S k' => iterate body k' (body st)
  end.

End Chunks.

(** ** Concrete recognizers and worlds used in examples *)

Module Scenarios.
Import Transcriber.

(** Audio chunks are identified by the offset they were read at. *)
Definition spoken (off : Z) : string :=
  if (off =? 0)%Z then "one"
  else if (off =? 30)%Z then "two"
  else if (off =? 60)%Z then "three"
  else if (off =? 90)%Z then "four"
  else if (off =? 120)%Z then "five"
  else "".

(** 150 seconds of audio, five chunks; the service fails on the second. *)
Definition five_chunks : backend Z :=
  mk_backend (Ok 150%Q)
    (fun _ off => Ok off)
    (fun a _ => if (a =? 30)%Z
                then Raise (RequestError "recognition connection failed")
                else Ok (spoken a)).

(** 90 seconds of audio whose second chunk cannot be read from the source. *)
Definition unreadable_mid_stream : backend Z :=
  mk_backend (Ok 90%Q)
    (fun _ off => if (off =? 30)%Z
                  then Raise (OSError "audio source unreadable")
                  else Ok off)
    (fun a _ => Ok (spoken a)).

(** 75 seconds of audio in which nothing is understood. *)
Definition nothing_understood : backend Z :=
  mk_backend (Ok 75%Q) (fun _ off => Ok off) (fun _ _ => Raise UnknownValueError).

(** 45.5 seconds of audio, all understood. *)
Definition short_talk : backend Z :=
  mk_backend (Ok (91 # 2)%Q) (fun _ off => Ok off) (fun a _ => Ok (spoken a)).

(** An audio file that cannot be opened. *)
Definition unopenable : backend Z :=
  mk_backend (Raise (OSError "cannot open audio file"))
    (fun _ off => Ok off) (fun a _ => Ok (spoken a)).

(** Temporary names: the first of [/tmp/tmp.wav], [/tmp/tmp.wav1], ... that
    is not in use. *)
Definition tmp_name (suffix : string) (fs : gmap string Media.file) : string :=
  fresh_string ("/tmp/tmp" ++ suffix) fs.

(** A world in which nothing fails: [video] is what moviepy opens, every
    audio file loads as 44.1 kHz stereo, and the services answer. *)
Definition calm_world (video : Media.VideoFileClip) : Jobs.world Z :=
  Jobs.mk_world Z tmp_name
    (fun suffix fs => fresh_string_fresh fs ("/tmp/tmp" ++ suffix))
    (fun _ => Ok video)
    (fun _ => None)
    (fun _ => Ok (Media.mk_segment 44100 2 2))
    (fun _ => None)
    (fun _ => short_talk)
    (fun _ _ => Ok " hello world ")
    "2024-05-01 12:00:00".

(** A video with a 44.1 kHz stereo track, and one without audio track. *)
Definition talk_video : Media.VideoFileClip :=
  Media.mk_video (Some (Media.mk_clip 44100 2)).
Definition silent_video : Media.VideoFileClip := Media.mk_video None.

(** As [calm_world talk_video], but pydub cannot load the extracted audio. *)
Definition undecodable_world : Jobs.world Z :=
  Jobs.mk_world Z tmp_name
    (fun suffix fs => fresh_string_fresh fs ("/tmp/tmp" ++ suffix))
    (fun _ => Ok talk_video)
    (fun _ => None)
    (fun _ => Raise (OSError "could not decode audio"))
    (fun _ => None)
    (fun _ => short_talk)
    (fun _ _ => Ok " hello world ")
    "2024-05-01 12:00:00".

(** As [calm_world talk_video], but the Whisper model cannot be loaded. *)
Definition no_model_world : Jobs.world Z :=
  Jobs.mk_world Z tmp_name
    (fun suffix fs => fresh_string_fresh fs ("/tmp/tmp" ++ suffix))
    (fun _ => Ok talk_video)
    (fun _ => None)
    (fun _ => Ok (Media.mk_segment 44100 2 2))
    (fun _ => None)
    (fun _ => short_talk)
    (fun _ _ => Raise (OSError "model not found"))
    "2024-05-01 12:00:00".

(** A disk holding only the input. *)
Definition disk_with (input : string) : Jobs.state :=
  Jobs.mk_st {[ input := Media.OtherFile ]} [] [] None.

End Scenarios.

(** ** [batch_convert.py]: one conversion per matching file *)

Module Batch.
Import Media Jobs.

(** What the batch script asks of its environment, beyond a single job. *)
Record batch_world (AudioData : Type) : Type := mk_batch_world {
  job_world : world AudioData;
  (** [Path.is_dir] on an existing path *)
  is_dir : string -> bool;
  (** [Path.mkdir(parents=True, exist_ok=True)]: the paths that exist
      afterwards, or the error; creating directories removes nothing *)
  mkdir : string -> gmap string file -> result (gmap string file);
  mkdir_grows : forall p fs fs', mkdir p fs = Ok fs' -> fs ⊆ fs';
  (** [list(input_path.glob(pattern))], or [rglob] when recursive *)
  glob : bool -> string -> string -> gmap string file -> list string;
  (** [input(...)]: what the user types when asked, while the file with
      this index is processed, about this existing output file *)
  answer : nat -> string -> result string
}.
Arguments job_world {AudioData} b.
Arguments is_dir {AudioData} b _.
Arguments mkdir {AudioData} b _ _.
Arguments mkdir_grows {AudioData} b _ _ _ _.
Arguments glob {AudioData} b _ _ _ _.
Arguments answer {AudioData} b _ _.

(** [str(e)] *)
Definition exn_message (e : exn) : string :=
  match e with
  | UnknownValueError => ""
  | RequestError msg => msg
  | ValueError msg => msg
  | AttributeError msg => msg
  | FileNotFoundError msg => msg
  | OSError msg => msg
  end.

(** [PurePath.stem]: the name without its suffix. *)
Definition path_stem (p : string) : string :=
  let name := path_name p in
  String.substring 0 (String.length name - String.length (path_suffix p)) name.

(** [directory / name] for a relative [name], both in the form
    [str(Path(...))] gives them. *)
Definition path_join (directory name : string) : string :=
  if String.eqb directory "." then name
  else if endswith directory "/" then directory ++ name
  else directory ++ "/" ++ name.

(** Truthiness of an optional [str] argument: [if output_dir:]. *)
Definition given (o : option string) : bool :=
  match o with
  | Some s => truthy s
  | None => false
  end.

(** What the loop prints about one file. *)
Inductive verdict : Type :=
| Converted (output_file : string)
| NotOverwritten
| Failed (e : exn).

(** [successful], [failed], [failed_files], and the per-file lines printed
    so far, in order. *)
Record tally : Type := mk_tally {
  successful : Z;
  failed : Z;
  failed_files : list (string * string);
  report : list (string * verdict)
}.

Definition no_tally : tally := mk_tally 0 0 [] [].

Section Batch.
Context {AudioData : Type} (bw : batch_world AudioData).

(** Lines 65-69. *)
Definition output_file_for (output_dir : option string)
    (output_path video_file : string) : result string :=
  if given output_dir
  then Ok (path_join output_path (path_stem video_file ++ "_transcript.docx"))
  else with_suffix video_file ".docx".

(** The body of the [for] loop, lines 64-94. *)
Definition process (output_dir : option string) (output_path lang : string)
    (fuel : nat) (t : tally) (video_file : string) : M tally :=
  try_except
    (let! output_file := lift (output_file_for output_dir output_path video_file) in
     let! present := path_exists output_file in
     let! overwrite :=
       (if present
        then let! response := lift (answer bw (List.length (report t)) output_file) in
             ret (String.eqb (lower response) "y")
        else ret true) in
     if negb overwrite
     then ret (mk_tally (successful t) (failed t) (failed_files t)
                        (report t ++ [(video_file, NotOverwritten)])%list)
     else
       let! converter := init video_file (Some output_file) lang in
       do! convert (job_world bw) converter fuel in
       ret (mk_tally (successful t + 1) (failed t) (failed_files t)
                     (report t ++ [(video_file, Converted output_file)])%list))
    (fun e =>
       ret (mk_tally (successful t) (failed t + 1)
                     (failed_files t ++ [(path_name video_file, exn_message e)])%list
                     (report t ++ [(video_file, Failed e)])%list)).

(** [for i, video_file in enumerate(video_files, 1): ...] *)
Fixpoint process_all (output_dir : option string) (output_path lang : string)
    (fuel : nat) (t : tally) (video_files : list string) : M tally :=
  match video_files with
  | [] => ret t
  | video_file :: rest =>
      let! t' := process output_dir output_path lang fuel t video_file in
      process_all output_dir output_path lang fuel t' rest
  end.

(** [output_path.mkdir(parents=True, exist_ok=True)] *)
Definition make_directory (p : string) : M unit :=
  fun s =>
    match mkdir bw p (files s) with
    | Raise e => Some (Raise e, s)
    | Ok fs' => Some (Ok tt, mk_st fs' (created s) (removed s) (temp_audio_path s))
    end.

Definition list_videos (recursive : bool) (input_path pattern : string)
    : M (list string) :=
  fun s => Some (Ok (glob bw recursive input_path pattern (files s)), s).

(** [batch_convert]: the exit status. *)
Definition batch_convert (input_dir : string) (output_dir : option string)
    (pattern lang : string) (recursive : bool) (fuel : nat) : M Z :=
  let input_path := input_dir in
  let! present := path_exists input_path in
  if negb present then ret 1%Z
  else if negb (is_dir bw input_path) then ret 1%Z
  else
    let! output_path :=
      match output_dir with
      | Some o =>
          if truthy o
          then do! make_directory o in ret o
          else ret input_path
      | None => ret input_path
      end in
    let! video_files := list_videos recursive input_path pattern in
    match video_files with
    | [] => ret 1%Z
    | _ =>
        let! t := process_all output_dir output_path lang fuel no_tally video_files in
        ret (if (failed t =? 0)%Z then 0%Z else 1%Z)
    end.

(** [main]; a [KeyboardInterrupt] is not modelled. *)
Definition main (input_dir : string) (output_dir : option string)
    (pattern lang : string) (recursive : bool) (fuel : nat) : M Z :=
  try_except
    (batch_convert input_dir output_dir pattern lang recursive fuel)
    (fun _ => ret 1%Z).

End Batch.
End Batch.

(** ** Vocabulary for the properties *)

Module Vocabulary.

(** Whether [sep] occurs in [s]. *)
Fixpoint occurs (sep s : string) : bool :=
  String.prefix sep s
  || match s with
     | EmptyString => false
     | String _ s' => occurs sep s'
     end.

(** The sum of a list of durations. *)
Definition Qsum (l : list Q) : Q := fold_right Qplus 0%Q l.

(** The files a batch report marks as failed. *)
Definition failures (r : list (string * Batch.verdict)) : list string :=
  omap (fun entry => match snd entry with
                     | Batch.Failed _ => Some (fst entry)
                     | _ => None
                     end) r.

(** The files a batch report marks as converted. *)
Definition conversions (r : list (string * Batch.verdict)) : list string :=
  omap (fun entry => match snd entry with
                     | Batch.Converted _ => Some (fst entry)
                     | _ => None
                     end) r.

(** The tally after one more file, given what was printed about it. *)
Definition record_verdict (t : Batch.tally) (video_file : string)
    (v : Batch.verdict) : Batch.tally :=
  match v with
  | Batch.Converted _ =>
      Batch.mk_tally (Batch.successful t + 1) (Batch.failed t) (Batch.failed_files t)
        (Batch.report t ++ [(video_file, v)])
  | Batch.NotOverwritten =>
      Batch.mk_tally (Batch.successful t) (Batch.failed t) (Batch.failed_files t)
        (Batch.report t ++ [(video_file, v)])
  | Batch.Failed e =>
      Batch.mk_tally (Batch.successful t) (Batch.failed t + 1)
        (Batch.failed_files t ++ [(Py.path_name video_file, Batch.exn_message e)])
        (Batch.report t ++ [(video_file, v)])
  end.

(** The lines of the summary about the files a batch report marks as
    failed: the name of the file and the message of the exception. *)
Definition failure_lines (r : list (string * Batch.verdict))
    : list (string * string) :=
  omap (fun entry => match snd entry with
                     | Batch.Failed e =>
                         Some (Py.path_name (fst entry), Batch.exn_message e)
                     | _ => None
                     end) r.

(** A tally whose counters and summary agree with its report. *)
Definition consistent (t : Batch.tally) : Prop :=
  Batch.successful t = Z.of_nat (length (conversions (Batch.report t)))
  /\ Batch.failed t = Z.of_nat (length (failures (Batch.report t)))
  /\ Batch.failed_files t = failure_lines (Batch.report t).

(** What a step of a batch does to the disk, [l] being the files created
    on the way from [s] to [s']: what existed still exists, a document is
    still a document, and when removing works [l] is also what was
    removed. *)
Definition step_effects {AudioData : Type} (w : Jobs.world AudioData)
    (s s' : Jobs.state) (l : list string) : Prop :=
  (forall q, is_Some (Jobs.files s !! q) -> is_Some (Jobs.files s' !! q))
  /\ (forall q doc, Jobs.files s !! q = Some (Media.DocxFile doc) ->
        exists doc', Jobs.files s' !! q = Some (Media.DocxFile doc'))
  /\ Jobs.created s' = (Jobs.created s ++ l)%list
  /\ ((forall p, Jobs.remove_error w p = None) ->
      (forall sfx fs, Jobs.temp_name w sfx fs <> "") ->
      Jobs.removed s' = (Jobs.removed s ++ l)%list).

(** A recording of length zero. *)
Definition empty_recording : Transcriber.backend Z :=
  Transcriber.mk_backend (Ok 0%Q) (fun _ off => Ok off) (fun _ _ => Ok "never asked").

(** The fuel covers the chunks of every audio file the recognizer can open. *)
Definition enough_fuel {AudioData : Type} (w : Jobs.world AudioData) (fuel : nat)
    : Prop :=
  forall p D,
    Transcriber.open_source (Jobs.recognizer w p) = Ok D ->
    (Chunks.n_chunks D Transcriber.chunk_duration <= fuel)%nat.

(** A batch world over [calm_world]: a directory [videos] holding the files
    that match, and a user who declines to overwrite. *)
Definition calm_batch (video : Media.VideoFileClip) (matching : list string)
    : Batch.batch_world Z :=
  Batch.mk_batch_world Z (Scenarios.calm_world video)
    (fun p => String.eqb p "videos")
    (fun p fs => Ok fs)
    (fun p fs fs' H =>
       match H in (_ = r) return match r with Ok m => fs ⊆ m | Raise _ => True end with
       | eq_refl => reflexivity (R := (⊆)) fs
       end)
    (fun _ _ _ _ => matching)
    (fun _ _ => Ok "n").

End Vocabulary.

(** * Properties *)

Local Open Scope list_scope.

(** ** The chunk loop *)

Module TranscriberProofs.
Import Transcriber Chunks Scenarios.

Lemma Qltb_true (x y : Q) : Qltb x y = true <-> (x < y)%Q.
Proof.
  unfold Qltb. rewrite Qlt_alt. destruct (x ?= y)%Q; split; congruence.
Qed.

Lemma Qltb_false (x y : Q) : Qltb x y = false <-> (y <= x)%Q.
Proof.
  rewrite <- not_true_iff_false, Qltb_true. split.
  - apply Qnot_lt_le.
  - apply Qle_not_lt.
Qed.

Lemma scale_lt (D : Q) (C m : Z) :
  (0 < C)%Z -> (inject_Z m < D / inject_Z C)%Q -> (inject_Z (m * C) < D)%Q.
Proof.
  intros HC H.
  assert (HCq : (0 < inject_Z C)%Q) by (change (inject_Z 0 < inject_Z C)%Q; rewrite <- Zlt_Qlt; exact HC).
  rewrite inject_Z_mult.
  apply Qmult_lt_compat_r with (z := inject_Z C) in H; [|exact HCq].
  rewrite (Qmult_comm (D / inject_Z C)), Qmult_div_r in H; [exact H|].
  intros E. rewrite E in HCq. discriminate.
Qed.

Lemma scale_le (D : Q) (C n : Z) :
  (0 < C)%Z -> (D / inject_Z C <= inject_Z n)%Q -> (D <= inject_Z (n * C))%Q.
Proof.
  intros HC H.
  assert (HCq : (0 < inject_Z C)%Q) by (change (inject_Z 0 < inject_Z C)%Q; rewrite <- Zlt_Qlt; exact HC).
  rewrite inject_Z_mult.
  apply Qmult_le_compat_r with (z := inject_Z C) in H; [|apply Qlt_le_weak; exact HCq].
  rewrite (Qmult_comm (D / inject_Z C)), Qmult_div_r in H; [exact H|].
  intros E. rewrite E in HCq. discriminate.
Qed.

Section LoopFacts.
Context {AudioData : Type}.
Variable be : backend AudioData.
Variable language : string.
Variable D : Q.
Variable C : Z.

Local Abbreviation body := (loop_body (record be) (recognize_google be) language D C).
Local Abbreviation loop := (while_loop (record be) (recognize_google be) language D C).

Lemma body_offset st : offset (body st) = (offset st + C)%Z.
Proof.
  unfold loop_body.
  destruct (record be _ _) as [a|e]; [|reflexivity].
  destruct (recognize_google be a language) as [t|[]]; [destruct (truthy t)|..];
    reflexivity.
Qed.

Lemma body_chunk_num st : chunk_num (body st) = (chunk_num st + 1)%Z.
Proof.
  unfold loop_body.
  destruct (record be _ _) as [a|e]; [|reflexivity].
  destruct (recognize_google be a language) as [t|[]]; [destruct (truthy t)|..];
    reflexivity.
Qed.

Lemma body_full_text st :
  full_text (body st)
  = full_text st ++ option_list (chunk_text be language D C (offset st)).
Proof.
  unfold loop_body, chunk_text, chunk_read.
  destruct (record be _ _) as [a|e]; simpl; [|reflexivity].
  destruct (recognize_google be a language) as [t|[]]; [destruct (truthy t)|..];
    reflexivity.
Qed.

Lemma body_record_calls st :
  record_calls (trace (body st))
  = record_calls (trace st)
    ++ [(requested_duration D C (offset st), offset st)].
Proof.
  unfold loop_body, record_calls.
  destruct (record be _ _) as [a|e]; simpl; [|rewrite omap_app; reflexivity].
  destruct (recognize_google be a language) as [t|[]]; [destruct (truthy t)|..];
    simpl; rewrite omap_app; reflexivity.
Qed.

Lemma body_recognize_calls st :
  recognize_calls (trace (body st))
  = recognize_calls (trace st)
    ++ option_list (option_map (fun a => (a, language))
                      (chunk_read be D C (offset st))).
Proof.
  unfold loop_body, recognize_calls, chunk_read.
  destruct (record be _ _) as [a|e]; simpl;
    [|rewrite omap_app; simpl; reflexivity].
  destruct (recognize_google be a language) as [t|[]]; [destruct (truthy t)|..];
    simpl; rewrite omap_app; reflexivity.
Qed.

Lemma offsets_from_S start n :
  offsets_from C start (S n) = start :: offsets_from C (start + C) n.
Proof.
  unfold offsets_from. simpl. f_equal; [lia|].
  rewrite <- seq_shift, map_map. apply map_ext. intros i. lia.
Qed.

Lemma iterate_offset k : forall st,
  offset (iterate body k st) = (offset st + Z.of_nat k * C)%Z.
Proof.
  induction k as [|k IH]; intros st; simpl iterate.
  - lia.
  - rewrite IH, body_offset. lia.
Qed.

Lemma iterate_chunk_num k : forall st,
  chunk_num (iterate body k st) = (chunk_num st + Z.of_nat k)%Z.
Proof.
  induction k as [|k IH]; intros st; simpl iterate.
  - lia.
  - rewrite IH, body_chunk_num. lia.
Qed.

Lemma iterate_full_text k : forall st,
  full_text (iterate body k st)
  = full_text st
    ++ omap (chunk_text be language D C) (offsets_from C (offset st) k).
Proof.
  induction k as [|k IH]; intros st.
  - simpl. symmetry. apply app_nil_r.
  - simpl iterate. rewrite IH, body_full_text, body_offset, offsets_from_S.
    rewrite <- app_assoc. f_equal. simpl.
    destruct (chunk_text be language D C (offset st)); reflexivity.
Qed.

Lemma iterate_record_calls k : forall st,
  record_calls (trace (iterate body k st))
  = record_calls (trace st)
    ++ map (fun off => (requested_duration D C off, off))
           (offsets_from C (offset st) k).
Proof.
  induction k as [|k IH]; intros st.
  - simpl. symmetry. apply app_nil_r.
  - simpl iterate. rewrite IH, body_record_calls, body_offset, offsets_from_S.
    rewrite <- app_assoc. reflexivity.
Qed.

Lemma iterate_recognize_calls k : forall st,
  recognize_calls (trace (iterate body k st))
  = recognize_calls (trace st)
    ++ omap (fun off => option_map (fun a => (a, language)) (chunk_read be D C off))
            (offsets_from C (offset st) k).
Proof.
  induction k as [|k IH]; intros st.
  - simpl. symmetry. apply app_nil_r.
  - simpl iterate. rewrite IH, body_recognize_calls, body_offset, offsets_from_S.
    rewrite <- app_assoc. f_equal. simpl.
    destruct (chunk_read be D C (offset st)); reflexivity.
Qed.

(** The loop runs its body exactly [k] times when the condition holds at
    the first [k] offsets and fails at the next one. *)
Lemma while_loop_iterate k : forall st fuel,
  (k <= fuel)%nat ->
  (forall j, (j < k)%nat -> (inject_Z (offset st + Z.of_nat j * C) < D)%Q) ->
  (D <= inject_Z (offset st + Z.of_nat k * C))%Q ->
  loop fuel st = Some (iterate body k st).
Proof.
  induction k as [|k IH]; intros st fuel Hfuel Hlt Hge.
  - assert (E : Qltb (inject_Z (offset st)) D = false).
    { apply Qltb_false. replace (offset st) with (offset st + Z.of_nat 0 * C)%Z at 1 by lia.
      exact Hge. }
    destruct fuel; simpl; rewrite E; reflexivity.
  - destruct fuel as [|fuel]; [lia|].
    assert (E : Qltb (inject_Z (offset st)) D = true).
    { apply Qltb_true. specialize (Hlt 0%nat ltac:(lia)).
      replace (offset st + Z.of_nat 0 * C)%Z with (offset st) in Hlt by lia.
      exact Hlt. }
    simpl. rewrite E. apply IH; [lia| |].
    + intros j Hj. rewrite body_offset.
      specialize (Hlt (S j) ltac:(lia)).
      replace (offset st + C + Z.of_nat j * C)%Z
        with (offset st + Z.of_nat (S j) * C)%Z by lia.
      exact Hlt.
    + rewrite body_offset.
      replace (offset st + C + Z.of_nat k * C)%Z
        with (offset st + Z.of_nat (S k) * C)%Z by lia.
      exact Hge.
Qed.

(** With a positive chunk length the condition holds exactly at the first
    [ceil(D / C)] offsets. *)
Lemma before_last j :
  (0 < C)%Z -> (j < n_chunks D C)%nat -> (inject_Z (Z.of_nat j * C) < D)%Q.
Proof.
  intros HC Hj. unfold n_chunks in Hj.
  pose proof (Qceiling_lt (D / inject_Z C)) as Hc.
  apply scale_lt in Hc; [|exact HC].
  eapply Qle_lt_trans; [|exact Hc].
  rewrite <- Zle_Qle. nia.
Qed.

Lemma after_last :
  (0 < C)%Z -> (D <= inject_Z (Z.of_nat (n_chunks D C) * C))%Q.
Proof.
  intros HC. unfold n_chunks.
  pose proof (Qle_ceiling (D / inject_Z C)) as Hc.
  apply scale_le in Hc; [|exact HC].
  eapply Qle_trans; [exact Hc|].
  rewrite <- Zle_Qle. nia.
Qed.

Lemma while_loop_runs fuel :
  (0 < C)%Z -> (n_chunks D C <= fuel)%nat ->
  loop fuel initial_state = Some (iterate body (n_chunks D C) initial_state).
Proof.
  intros HC Hfuel. apply while_loop_iterate; [exact Hfuel| |].
  - intros j Hj. simpl. apply before_last; assumption.
  - simpl. apply after_last; assumption.
Qed.

End LoopFacts.

(** What [transcribe_audio] returns once the source is open and the fuel
    covers the chunks. *)
Lemma transcribe_audio_with_runs {AudioData : Type} (be : backend AudioData)
    (language : string) (D : Q) (C : Z) (fuel : nat) :
  (0 < C)%Z -> open_source be = Ok D -> (n_chunks D C <= fuel)%nat ->
  transcribe_audio_with C be language fuel
  = let st := iterate (loop_body (record be) (recognize_google be) language D C)
                      (n_chunks D C) initial_state in
    Some (Ok (combine (full_text st)), trace st).
Proof.
  intros HC Hopen Hfuel. unfold transcribe_audio_with.
  rewrite Hopen, while_loop_runs by assumption. reflexivity.
Qed.

Lemma join_cons_truthy sep p rest :
  truthy p = true -> truthy (join sep (p :: rest)) = true.
Proof.
  destruct p as [|c p]; [discriminate|]. intros _.
  destruct rest; reflexivity.
Qed.

Lemma chunk_text_truthy {AudioData : Type} (be : backend AudioData) language D C off t :
  chunk_text be language D C off = Some t -> truthy t = true.
Proof.
  unfold chunk_text. destruct (chunk_read be D C off) as [a|]; [|discriminate].
  destruct (recognize_google be a language) as [t'|]; [|discriminate].
  destruct (truthy t') eqn:E; [|discriminate]. congruence.
Qed.

Lemma combine_texts {AudioData : Type} (be : backend AudioData) language D C offs :
  combine (omap (chunk_text be language D C) offs)
  = match omap (chunk_text be language D C) offs with
    | [] => placeholder
    | texts => join " " texts
    end.
Proof.
  induction offs as [|off offs IH]; [reflexivity|].
  simpl. destruct (chunk_text be language D C off) as [t|] eqn:E; [|exact IH].
  unfold combine. rewrite join_cons_truthy; [reflexivity|].
  eapply chunk_text_truthy; exact E.
Qed.

Lemma combine_truthy texts : truthy (combine texts) = true.
Proof.
  unfold combine. destruct (truthy (join " " texts)) eqn:E; [exact E|reflexivity].
Qed.

Lemma n_chunks_pos D C : (0 < D)%Q -> (0 < C)%Z -> (0 < n_chunks D C)%nat.
Proof.
  intros HD HC. unfold n_chunks.
  pose proof (Qle_ceiling (D / inject_Z C)) as Hc.
  assert (HCq : (0 < inject_Z C)%Q)
    by (change (inject_Z 0 < inject_Z C)%Q; rewrite <- Zlt_Qlt; exact HC).
  assert (H0 : (0 < D / inject_Z C)%Q).
  { apply Qlt_shift_div_l; [exact HCq|]. rewrite Qmult_0_l. exact HD. }
  assert (Hz : (0 < Qceiling (D / inject_Z C))%Z).
  { rewrite Zlt_Qlt. eapply Qlt_le_trans; [exact H0|exact Hc]. }
  lia.
Qed.

Lemma offsets_from_snoc C start n :
  offsets_from C start (S n)
  = offsets_from C start n ++ [(start + Z.of_nat n * C)%Z].
Proof.
  unfold offsets_from. rewrite seq_S, map_app. reflexivity.
Qed.

(** Whether the duration is a whole number of chunks. *)
Lemma ceiling_floor (x : Q) :
  (~ exists k : Z, x == inject_Z k)%Q -> Qceiling x = (Qfloor x + 1)%Z.
Proof.
  intros Hn.
  pose proof (Qfloor_le x) as H1. pose proof (Qlt_floor x) as H2.
  pose proof (Qle_ceiling x) as H3. pose proof (Qceiling_lt x) as H4.
  assert (Hle : (Qfloor x <= Qceiling x)%Z).
  { rewrite Zle_Qle. eapply Qle_trans; eassumption. }
  assert (Hlt : (Qceiling x - 1 < Qfloor x + 1)%Z).
  { rewrite Zlt_Qlt. eapply Qlt_trans; eassumption. }
  destruct (Z.eq_dec (Qceiling x) (Qfloor x)) as [E|E]; [|lia].
  exfalso. apply Hn. exists (Qfloor x). apply Qle_antisym; [|exact H1].
  rewrite <- E. exact H3.
Qed.

Lemma ceiling_whole (x : Q) (k : Z) : (x == inject_Z k)%Q -> Qceiling x = k.
Proof.
  intros E. rewrite E. apply Qceiling_Z.
Qed.

Lemma whole_quotient (D : Q) (C k : Z) :
  (0 < C)%Z -> (D == inject_Z (k * C))%Q -> (D / inject_Z C == inject_Z k)%Q.
Proof.
  intros HC E. rewrite E, inject_Z_mult. apply Qdiv_mult_l.
  intros E0. apply (Qeq_bool_neq (inject_Z C) 0); [|exact E0].
  unfold Qeq_bool. simpl. destruct C; try lia; reflexivity.
Qed.

Lemma quotient_whole (D : Q) (C k : Z) :
  (0 < C)%Z -> (D / inject_Z C == inject_Z k)%Q -> (D == inject_Z (k * C))%Q.
Proof.
  intros HC E. apply Qle_antisym.
  - apply scale_le; [exact HC|]. rewrite E. apply Qle_refl.
  - rewrite inject_Z_mult, <- E, Qmult_comm, Qmult_div_r; [apply Qle_refl|].
    intros E0. apply (Qeq_bool_neq (inject_Z C) 0); [|exact E0].
    unfold Qeq_bool. simpl. destruct C; try lia; reflexivity.
Qed.

(** C4.  For every duration [D > 0] and chunk length [C > 0] the loop,
    given enough fuel, ends after exactly [ceil(D / C)] iterations
    ([chunk_num] counts them from 1), the chunks it requests are those at
    offsets [0, C, 2C, ...] with duration [min(C, D - offset)], and the last
    requested duration is [C] when [D] is a multiple of [C] and
    [D - C * floor(D / C)] otherwise.  Durations are rationals: the float
    operations of the loop ([int < float], [float - int], [min]) are exact
    on the values they meet. *)
Theorem chunk_plan {AudioData : Type} (be : backend AudioData)
    (language : string) (D : Q) (C : Z) (fuel : nat) :
  (0 < D)%Q -> (0 < C)%Z -> (n_chunks D C <= fuel)%nat ->
  exists st,
    while_loop (record be) (recognize_google be) language D C fuel initial_state
    = Some st
    /\ (chunk_num st - 1 = Qceiling (D / inject_Z C))%Z
    /\ record_calls (trace st)
       = map (fun off => (Qmin (inject_Z C) (D - inject_Z off), off))
             (chunk_offsets D C)
    /\ length (chunk_offsets D C) = Z.to_nat (Qceiling (D / inject_Z C))
    /\ exists d_last off_last,
         last (record_calls (trace st)) = Some (d_last, off_last)
         /\ ((exists k : Z, D == inject_Z (k * C))%Q -> (d_last == inject_Z C)%Q)
         /\ (~ (exists k : Z, D == inject_Z (k * C))%Q ->
             (d_last == D - inject_Z (C * Qfloor (D / inject_Z C)))%Q).
Proof.
  intros HD HC Hfuel.
  eexists. split; [apply while_loop_runs; assumption|].
  pose proof (n_chunks_pos D C HD HC) as Hpos.
  split.
  { rewrite iterate_chunk_num. simpl. unfold n_chunks in *. lia. }
  split.
  { rewrite iterate_record_calls. reflexivity. }
  split.
  { unfold chunk_offsets, offsets_from. rewrite length_map, length_seq. reflexivity. }
  rewrite iterate_record_calls. simpl record_calls. simpl offset.
  destruct (n_chunks D C) as [|m] eqn:En; [lia|].
  exists (Qmin (inject_Z C) (D - inject_Z (0 + Z.of_nat m * C))),
         (0 + Z.of_nat m * C)%Z.
  split.
  { rewrite app_nil_l, offsets_from_snoc, map_app. simpl. apply last_snoc. }
  pose proof (after_last D C HC) as Hafter. rewrite En in Hafter.
  assert (Hm : Qceiling (D / inject_Z C) = Z.of_nat (S m)).
  { unfold n_chunks in En. lia. }
  replace (0 + Z.of_nat m * C)%Z with (Z.of_nat m * C)%Z by lia.
  split.
  - intros [k Hk].
    pose proof (ceiling_whole _ _ (whole_quotient D C k HC Hk)) as Hck.
    apply Q.min_l. rewrite Hk. unfold Qminus. rewrite <- inject_Z_opp, <- inject_Z_plus.
    rewrite <- Zle_Qle. nia.
  - intros Hn.
    assert (Hnq : ~ (exists k : Z, D / inject_Z C == inject_Z k)%Q).
    { intros [k Hk]. apply Hn. exists k. apply quotient_whole; assumption. }
    pose proof (ceiling_floor _ Hnq) as Hcf.
    assert (Hfl : Qfloor (D / inject_Z C) = Z.of_nat m) by lia.
    rewrite Hfl. rewrite (Z.mul_comm C).
    apply Q.min_r.
    assert (Hlt : (D < inject_Z (Z.of_nat (S m) * C))%Q).
    { apply Qle_lteq in Hafter. destruct Hafter as [Hlt|Heq]; [exact Hlt|].
      exfalso. apply Hn. exists (Z.of_nat (S m)). exact Heq. }
    replace (Z.of_nat (S m) * C)%Z with (Z.of_nat m * C + C)%Z in Hlt by lia.
    rewrite inject_Z_plus in Hlt.
    apply Qlt_le_weak. revert Hlt.
    generalize (inject_Z (Z.of_nat m * C)) (inject_Z C). intros a c Hlt. lra.
Qed.

Lemma chunk_plan_witness :
  exists st,
    while_loop (record short_talk) (recognize_google short_talk) "en-US"
      (91 # 2) 30 2 initial_state = Some st
    /\ chunk_num st = 3%Z
    /\ record_calls (trace st) = [(30%Q, 0%Z); ((31 # 2)%Q, 30%Z)].
Proof.
  destruct (chunk_plan short_talk "en-US" (91 # 2) 30 2)
    as (st & Hrun & Hnum & Hcalls & _); [reflexivity|lia|vm_compute; lia|].
  exists st. split; [exact Hrun|]. split.
  - assert (E : Qceiling ((91 # 2) / inject_Z 30) = 2%Z) by reflexivity.
    rewrite E in Hnum. lia.
  - rewrite Hcalls. reflexivity.
Defined.

Lemma offsets_from_increasing C start n i j oi oj :
  (0 < C)%Z ->
  offsets_from C start n !! i = Some oi ->
  offsets_from C start n !! j = Some oj ->
  (i < j)%nat -> (oi < oj)%Z.
Proof.
  intros HC Hi Hj Hij. unfold offsets_from in *.
  change (map ?f ?l) with (f <$> l) in Hi, Hj.
  rewrite list_lookup_fmap in Hi, Hj.
  destruct (seq 0 n !! i) as [a|] eqn:Ea; [|discriminate].
  destruct (seq 0 n !! j) as [b|] eqn:Eb; [|discriminate].
  apply lookup_seq in Ea, Eb. simpl in Hi, Hj.
  injection Hi as <-. injection Hj as <-. nia.
Qed.

(** [' '.join] written with the library's [String.concat]. *)
Lemma join_concat (sep : string) (parts : list string) :
  join sep parts = String.concat sep parts.
Proof.
  induction parts as [|p rest IH]; [reflexivity|].
  destruct rest as [|q rest]; [reflexivity|].
  change (join sep (p :: q :: rest)) with (p ++ sep ++ join sep (q :: rest))%string.
  rewrite IH. reflexivity.
Qed.

Lemma omap_shorter {A B : Type} (f : A -> option B) (l : list A) :
  (length (omap f l) <= length l)%nat.
Proof.
  induction l as [|x l IH]; [reflexivity|].
  cbn [omap list_omap]. destruct (f x); cbn; lia.
Qed.

(** C5, counterexample.  The second of three chunks cannot be read: three
    reads are asked for, at offsets 0, 30 and 60, but only two recognition
    calls are made, for the first and the third chunk. *)
Lemma unread_chunk_is_not_recognized :
  exists tr,
    transcribe_audio unreadable_mid_stream "en-US" 3
    = Some (Ok "one three", tr)
    /\ map snd (record_calls tr) = [0; 30; 60]%Z
    /\ recognize_calls tr = [(0%Z, "en-US"); (60%Z, "en-US")].
Proof.
  eexists. split; [vm_compute; reflexivity|]. split; reflexivity.
Qed.

(** C5, as the code has it.  Every chunk is read once, in strictly
    increasing offset order; one recognition call is made for every chunk
    whose read returned, in the same order, and none for a chunk whose read
    raised, so there are as many recognition calls as chunks exactly when
    every read returns.  The transcript is built from the text of every
    chunk that was recognized, whatever happened to the other chunks: with
    five chunks of which the second raises a [RequestError], five
    recognition calls are made and the transcript is the texts of chunks
    1, 3, 4, 5 in that order. *)
Theorem one_call_per_chunk_read_in_order :
  (forall (AudioData : Type) (be : backend AudioData) (language : string)
          (D : Q) (fuel : nat),
      open_source be = Ok D ->
      (n_chunks D chunk_duration <= fuel)%nat ->
      exists tr,
        transcribe_audio be language fuel
        = Some (Ok match omap (chunk_text be language D chunk_duration)
                              (chunk_offsets D chunk_duration) with
                   | [] => "[No speech detected in audio]"
                   | texts => String.concat " " texts
                   end, tr)
        /\ map snd (record_calls tr) = chunk_offsets D chunk_duration
        /\ recognize_calls tr
           = omap (fun off =>
                     match record be (Qmin (inject_Z chunk_duration)
                                           (D - inject_Z off)) off with
                     | Ok audio_chunk => Some (audio_chunk, language)
                     | Raise _ => None
                     end)
                  (chunk_offsets D chunk_duration)
        /\ (length (recognize_calls tr) <= length (chunk_offsets D chunk_duration))%nat
        /\ ((forall off, off ∈ chunk_offsets D chunk_duration ->
               exists audio_chunk,
                 record be (Qmin (inject_Z chunk_duration) (D - inject_Z off)) off
                 = Ok audio_chunk) ->
            length (recognize_calls tr) = length (chunk_offsets D chunk_duration))
        /\ (forall i j oi oj,
               chunk_offsets D chunk_duration !! i = Some oi ->
               chunk_offsets D chunk_duration !! j = Some oj ->
               (i < j)%nat -> (oi < oj)%Z))
  /\ exists tr,
       transcribe_audio five_chunks "en-US" 5
       = Some (Ok "one three four five", tr)
       /\ map snd (record_calls tr) = [0; 30; 60; 90; 120]%Z
       /\ recognize_calls tr
          = [(0%Z, "en-US"); (30%Z, "en-US"); (60%Z, "en-US"); (90%Z, "en-US");
             (120%Z, "en-US")].
Proof.
  split.
  - intros AudioData be language D fuel Hopen Hfuel.
    assert (Hcalls : forall offs : list Z,
      omap (fun off => option_map (fun a => (a, language))
                         (chunk_read be D chunk_duration off)) offs
      = omap (fun off =>
                match record be (Qmin (inject_Z chunk_duration)
                                      (D - inject_Z off)) off with
                | Ok audio_chunk => Some (audio_chunk, language)
                | Raise _ => None
                end) offs).
    { induction offs as [|off offs IH]; [reflexivity|].
      cbn [omap list_omap]. rewrite IH. unfold chunk_read, requested_duration.
      destruct (record be _ off); reflexivity. }
    eexists. split; [|split; [|split; [|split; [|split]]]].
    + unfold transcribe_audio. rewrite (transcribe_audio_with_runs be language D);
        [|reflexivity|exact Hopen|exact Hfuel].
      cbv zeta. rewrite iterate_full_text. simpl full_text. simpl offset.
      rewrite app_nil_l. fold (chunk_offsets D chunk_duration).
      rewrite combine_texts.
      destruct (omap _ _); [reflexivity|]. rewrite join_concat. reflexivity.
    + rewrite iterate_record_calls. simpl record_calls. simpl offset.
      rewrite app_nil_l, map_map. simpl. rewrite map_id. reflexivity.
    + rewrite iterate_recognize_calls. simpl recognize_calls. simpl offset.
      rewrite app_nil_l. apply Hcalls.
    + rewrite iterate_recognize_calls. simpl recognize_calls. simpl offset.
      rewrite app_nil_l. apply omap_shorter.
    + intros Hread. rewrite iterate_recognize_calls. simpl recognize_calls.
      simpl offset. rewrite app_nil_l, Hcalls.
      fold (chunk_offsets D chunk_duration).
      revert Hread. generalize (chunk_offsets D chunk_duration) as offs.
      induction offs as [|off offs IH]; intros Hread; [reflexivity|].
      cbn [omap list_omap]. destruct (Hread off) as [a Ha]; [left|].
      rewrite Ha. cbn. f_equal. apply IH.
      intros z Hz. apply Hread. right. exact Hz.
    + intros i j oi oj. apply offsets_from_increasing. reflexivity.
  - eexists. split; [vm_compute; reflexivity|]. split; reflexivity.
Qed.

Lemma one_call_per_chunk_read_in_order_witness :
  exists tr,
    transcribe_audio unreadable_mid_stream "en-US" 4
    = Some (Ok "one three", tr)
    /\ map snd (record_calls tr) = [0; 30; 60]%Z
    /\ recognize_calls tr = [(0%Z, "en-US"); (60%Z, "en-US")].
Proof.
  destruct (proj1 one_call_per_chunk_read_in_order Z unreadable_mid_stream "en-US"
              90%Q 4%nat) as (tr & Hrun & Hreads & Hcalls & _).
  - reflexivity.
  - vm_compute. lia.
  - exists tr. split; [exact Hrun|]. split; [exact Hreads|]. exact Hcalls.
Defined.

(** C6.  Once the audio source is open, [transcribe_audio] returns and does
    not raise, and what it returns is never the empty string: it is the
    placeholder ["[No speech detected in audio]"] when no chunk yields
    recognized text, and otherwise the recognized texts in offset order
    with one space between neighbours. *)
Theorem placeholder_or_joined {AudioData : Type} (be : backend AudioData)
    (language : string) (D : Q) (fuel : nat) :
  open_source be = Ok D ->
  (n_chunks D chunk_duration <= fuel)%nat ->
  exists tr text,
    transcribe_audio be language fuel = Some (Ok text, tr)
    /\ text = match omap (chunk_text be language D chunk_duration)
                         (chunk_offsets D chunk_duration) with
              | [] => "[No speech detected in audio]"
              | texts => String.concat " " texts
              end
    /\ text <> "".
Proof.
  intros Hopen Hfuel. eexists _, _. split; [|split].
  - unfold transcribe_audio. rewrite (transcribe_audio_with_runs be language D);
      [|reflexivity|exact Hopen|exact Hfuel].
    cbv zeta. reflexivity.
  - rewrite iterate_full_text. simpl full_text. simpl offset.
    rewrite app_nil_l. fold (chunk_offsets D chunk_duration).
    rewrite combine_texts.
    destruct (omap _ _); [reflexivity|]. rewrite join_concat. reflexivity.
  - intros E. pose proof (combine_truthy
      (full_text (iterate (loop_body (record be) (recognize_google be) language D
                             chunk_duration)
                          (n_chunks D chunk_duration) initial_state))) as Ht.
    rewrite E in Ht. discriminate Ht.
Qed.

Lemma placeholder_or_joined_witness :
  (exists tr,
     transcribe_audio nothing_understood "en-US" 3
     = Some (Ok "[No speech detected in audio]", tr))
  /\ (exists tr,
        transcribe_audio five_chunks "en-US" 5
        = Some (Ok "one three four five", tr))
  /\ (exists tr,
        transcribe_audio short_talk "en-US" 2 = Some (Ok "one two", tr)).
Proof.
  split; [|split].
  - destruct (placeholder_or_joined nothing_understood "en-US" 75%Q 3%nat)
      as (tr & text & Hrun & -> & _); [reflexivity|vm_compute; lia|].
    exists tr. exact Hrun.
  - destruct (placeholder_or_joined five_chunks "en-US" 150%Q 5%nat)
      as (tr & text & Hrun & -> & _); [reflexivity|vm_compute; lia|].
    exists tr. exact Hrun.
  - destruct (placeholder_or_joined short_talk "en-US" (91 # 2)%Q 2%nat)
      as (tr & text & Hrun & -> & _); [reflexivity|vm_compute; lia|].
    exists tr. exact Hrun.
Defined.

(** C9.  Every path through the loop body advances [offset] by
    [chunk_duration], and for every duration the loop stops: from some
    amount of fuel on it returns the same final state, whose offset has
    reached the duration. *)
Theorem chunk_loop_terminates {AudioData : Type} (be : backend AudioData)
    (language : string) (D : Q) :
  (forall st,
      offset (loop_body (record be) (recognize_google be) language D
                        chunk_duration st)
      = (offset st + chunk_duration)%Z)
  /\ exists (n : nat) (st' : loop_state AudioData),
       (D <= inject_Z (offset st'))%Q
       /\ forall fuel, (n <= fuel)%nat ->
            while_loop (record be) (recognize_google be) language D
                       chunk_duration fuel initial_state = Some st'.
Proof.
  split; [apply body_offset|].
  exists (n_chunks D chunk_duration),
         (iterate (loop_body (record be) (recognize_google be) language D
                             chunk_duration)
                  (n_chunks D chunk_duration) initial_state).
  split.
  - rewrite iterate_offset. apply (after_last D chunk_duration). reflexivity.
  - intros fuel Hfuel. apply while_loop_runs; [reflexivity|exact Hfuel].
Qed.

Lemma chunk_loop_terminates_witness :
  exists (n : nat) (st' : loop_state Z),
    (91 # 2 <= inject_Z (offset st'))%Q
    /\ while_loop (record short_talk) (recognize_google short_talk) "en-US"
         (91 # 2) chunk_duration n initial_state = Some st'.
Proof.
  destruct (proj2 (chunk_loop_terminates short_talk "en-US" (91 # 2)))
    as (n & st' & Hge & Hrun).
  exists n, st'. split; [exact Hge|]. apply Hrun. lia.
Defined.

(** C1, counterexample.  The second chunk of a 90-second file cannot be read
    from the source; [transcribe_audio] does not raise: it prints the error,
    skips the chunk and returns the transcript of the other two. *)
Lemma read_failure_is_skipped :
  record unreadable_mid_stream (requested_duration 90 chunk_duration 30) 30
  = Raise (OSError "audio source unreadable")
  /\ exists tr,
       transcribe_audio unreadable_mid_stream "en-US" 3
       = Some (Ok "one three", tr)
       /\ In (Skipped 2 (OSError "audio source unreadable")) tr.
Proof.
  split; [reflexivity|].
  eexists. split; [vm_compute; reflexivity|].
  simpl. tauto.
Qed.

(** C1, as the code has it.  Only a failure to open the audio source is
    propagated.  Once the source is open, [transcribe_audio] returns a
    transcript whatever the reads do: a chunk whose read raises was
    requested, is skipped and contributes no text. *)
Theorem only_open_failure_propagates {AudioData : Type} (be : backend AudioData)
    (language : string) (fuel : nat) :
  (forall e, open_source be = Raise e ->
             transcribe_audio be language fuel = Some (Raise e, []))
  /\ (forall D, open_source be = Ok D ->
        (n_chunks D chunk_duration <= fuel)%nat ->
        exists tr,
          transcribe_audio be language fuel
          = Some (Ok (combine (omap (chunk_text be language D chunk_duration)
                                    (chunk_offsets D chunk_duration))), tr)
          /\ forall off e,
               off ∈ chunk_offsets D chunk_duration ->
               record be (requested_duration D chunk_duration off) off = Raise e ->
               In (RecordCall (requested_duration D chunk_duration off) off) tr
               /\ chunk_text be language D chunk_duration off = None).
Proof.
  split.
  - intros e He. unfold transcribe_audio, transcribe_audio_with. rewrite He.
    reflexivity.
  - intros D Hopen Hfuel. eexists. split.
    + unfold transcribe_audio. rewrite (transcribe_audio_with_runs be language D);
        [|reflexivity|exact Hopen|exact Hfuel].
      cbv zeta. rewrite iterate_full_text. reflexivity.
    + intros off e Hoff He. split.
      * assert (Hin : In (requested_duration D chunk_duration off, off)
                         (record_calls (trace (iterate
                            (loop_body (record be) (recognize_google be) language D
                               chunk_duration)
                            (n_chunks D chunk_duration) initial_state)))).
        { rewrite iterate_record_calls. simpl. apply in_map_iff.
          exists off. split; [reflexivity|]. apply list_elem_of_In. exact Hoff. }
        unfold record_calls in Hin. apply list_elem_of_In in Hin.
        apply list_elem_of_omap in Hin. destruct Hin as (ev & Hev & Heq).
        apply list_elem_of_In in Hev.
        destruct ev; try discriminate. injection Heq as -> ->. exact Hev.
      * unfold chunk_text, chunk_read. rewrite He. reflexivity.
Qed.

Lemma only_open_failure_propagates_witness :
  transcribe_audio unopenable "en-US" 0
  = Some (Raise (OSError "cannot open audio file"), [])
  /\ exists tr,
       transcribe_audio unreadable_mid_stream "en-US" 3 = Some (Ok "one three", tr)
       /\ In (RecordCall 30 30) tr.
Proof.
  split.
  - apply (proj1 (only_open_failure_propagates unopenable "en-US" 0)).
    reflexivity.
  - destruct (proj2 (only_open_failure_propagates unreadable_mid_stream "en-US" 3)
                90%Q) as (tr & Hrun & Hskip); [reflexivity|vm_compute; lia|].
    exists tr. split; [exact Hrun|].
    apply (Hskip 30%Z (OSError "audio source unreadable")); [|reflexivity].
    vm_compute. right. left.
Defined.

End TranscriberProofs.

(** ** Temporary files and the two orchestrators *)

Module JobProofs.
Import Media Jobs Scenarios.

Section Survival.
Context {AudioData : Type} (w : world AudioData).

Lemma fresh_ne sfx (fs : gmap string file) input :
  is_Some (fs !! input) -> temp_name w sfx fs <> input.
Proof.
  intros [f Hf] E. pose proof (temp_name_fresh w sfx fs) as H.
  rewrite E in H. congruence.
Qed.

Lemma present_insert (fs : gmap string file) p f input :
  is_Some (fs !! input) -> is_Some (<[p := f]> fs !! input).
Proof.
  intros H. apply lookup_insert_is_Some.
  destruct (decide (p = input)); [left|right]; done.
Qed.

Lemma present_delete (fs : gmap string file) p input :
  p <> input -> is_Some (fs !! input) -> is_Some (delete p fs !! input).
Proof. intros Hne H. rewrite lookup_delete_ne; done. Qed.

Lemma not_in_snoc (l : list string) p input :
  p <> input -> input ∉ l -> input ∉ l ++ [p].
Proof.
  intros Hne Hl Hin. apply elem_of_app in Hin. destruct Hin as [Hin|Hin]; [done|].
  apply list_elem_of_singleton in Hin. congruence.
Qed.
End Survival.

Ltac bool_facts :=
  repeat match goal with
    | H : negb _ = true |- _ => apply negb_true_iff in H
    | H : negb _ = false |- _ => apply negb_false_iff in H
    | H : _ && _ = true |- _ => apply andb_true_iff in H; destruct H
    | H : String.eqb _ _ = false |- _ => apply String.eqb_neq in H
    | H : String.eqb _ _ = true |- _ => apply String.eqb_eq in H
    | H : bool_decide _ = true |- _ => apply bool_decide_eq_true in H
    | H : bool_decide _ = false |- _ => apply bool_decide_eq_false in H
    end.

Ltac present :=
  first [ assumption
        | apply present_insert; present
        | apply present_delete; [distinct | present] ]
with distinct :=
  first [ assumption
        | apply fresh_ne; present ].

Ltac unremoved :=
  first [ assumption
        | apply not_in_snoc; [distinct | unremoved] ].

(** Whatever the environment answers, [main] of [transcribe.py] ends, and
    neither removes nor loses a file that was there when it started. *)
Lemma input_survives {AudioData} (w : world AudioData) (input model : string)
    (output : option string) (s : state) :
  is_Some (files s !! input) -> input ∉ removed s ->
  exists r s',
    Whisper.main w input model output s = Some (r, s')
    /\ is_Some (files s' !! input) /\ input ∉ removed s'.
Proof.
  intros Hin Hrm.
  unfold Whisper.main, Whisper.ensure_audio, Whisper.normalise_audio,
    Whisper.transcribe_audio, Whisper.save_to_docx, try_finally, bind, path_exists,
    create_temp, write_file, remove_file, lift, ret, raise.
  cbn.
  repeat (case_match; simplify_eq; cbn in * ).
  all: eexists _, _; (split; [reflexivity|]); cbn.
  all: bool_facts; try contradiction; try congruence.
  all: split; [present|unremoved].
Qed.

(** C2, counterexample.  [extract_audio] on a video with a 44.1 kHz stereo
    track writes a mono file at 44100 Hz, not at 16000 Hz: it asks ffmpeg
    for one channel and never sets the sample rate. *)
Lemma extracted_audio_keeps_source_rate :
  exists p s',
    extract_audio (calm_world talk_video)
      (mk_converter "talk.mp4" "talk.docx" "en-US") (disk_with "talk.mp4")
    = Some (Ok p, s')
    /\ files s' !! p = Some (WavFile (mk_wav 44100 1 2))
    /\ (44100 <> 16000)%Z.
Proof.
  eexists _, _. split; [vm_compute; reflexivity|].
  split; [vm_compute; reflexivity|lia].
Qed.

(** C2, as the code has it.  [normalise_audio] of [transcribe.py] returns a
    newly created temporary file holding a 16 kHz mono waveform;
    [extract_audio] of [video_to_text.py] returns a newly created temporary
    file holding a mono 16-bit waveform at the sample rate of the clip's
    audio (44100 Hz when the clip has none). *)
Theorem waveform_formats {AudioData : Type} (w : world AudioData) (s : state) :
  (forall input p s',
      Whisper.normalise_audio w input s = Some (Ok p, s') ->
      files s !! p = None
      /\ exists width, files s' !! p = Some (WavFile (mk_wav 16000 1 width)))
  /\ (forall self p s',
        extract_audio w self s = Some (Ok p, s') ->
        files s !! p = None
        /\ exists a,
             open_video w (video_path self) = Ok (mk_video (Some a))
             /\ files s' !! p
                = Some (WavFile (mk_wav (if (fps a =? 0)%Z then 44100 else fps a)
                                        1 2))).
Proof.
  split.
  - intros input p s'.
    unfold Whisper.normalise_audio, bind, lift, create_temp, write_file, ret.
    destruct (from_file w input) as [a|e]; [|discriminate].
    destruct (write_error w _); [discriminate|].
    intros H. injection H as <- <-. split; [apply temp_name_fresh|].
    eexists. cbn. rewrite lookup_insert_eq. reflexivity.
  - intros self p s'.
    unfold extract_audio, try_except, bind, lift, create_temp, write_file, ret,
      set_temp_audio_path, raise.
    destruct (open_video w (video_path self)) as [[[a|]]|e]; cbn; try discriminate.
    destruct (write_error w _); cbn; [discriminate|].
    intros H. injection H as <- <-. split; [apply temp_name_fresh|].
    exists a. split; [reflexivity|]. cbn. rewrite lookup_insert_eq. reflexivity.
Qed.

Lemma waveform_formats_witness :
  (exists p s',
      Whisper.normalise_audio (calm_world talk_video) "talk.wav"
        (disk_with "talk.wav")
      = Some (Ok p, s')
      /\ exists width, files s' !! p = Some (WavFile (mk_wav 16000 1 width)))
  /\ (exists p s',
        extract_audio (calm_world talk_video)
          (mk_converter "talk.mp4" "talk.docx" "en-US") (disk_with "talk.mp4")
        = Some (Ok p, s')
        /\ files (disk_with "talk.mp4") !! p = None).
Proof.
  split.
  - eexists _, _. split; [vm_compute; reflexivity|].
    apply (proj1 (waveform_formats (calm_world talk_video) (disk_with "talk.wav"))
                  "talk.wav").
    vm_compute. reflexivity.
  - eexists _, _. split; [vm_compute; reflexivity|].
    eapply (proj2 (waveform_formats (calm_world talk_video) (disk_with "talk.mp4"))
                  (mk_converter "talk.mp4" "talk.docx" "en-US")).
    vm_compute. reflexivity.
Defined.

(** C3, the code at the failing inputs.  [main] of [transcribe.py] on a
    video without audio track, and on a video whose extracted audio pydub
    cannot load: the job ends with the exception, and the temporary file
    that [ensure_audio] created is still on disk and was never removed. *)
Theorem temporary_files_left_behind :
  (exists s',
      Whisper.main (calm_world silent_video) "talk.mp4" "base" None
        (disk_with "talk.mp4")
      = Some (Raise (AttributeError
                       "'NoneType' object has no attribute 'write_audiofile'"), s')
      /\ created s' = ["/tmp/tmp.wav"]
      /\ removed s' = []
      /\ is_Some (files s' !! "/tmp/tmp.wav"))
  /\ (exists s',
        Whisper.main undecodable_world "talk.mp4" "base" None
          (disk_with "talk.mp4")
        = Some (Raise (OSError "could not decode audio"), s')
        /\ created s' = ["/tmp/tmp.wav"]
        /\ removed s' = []
        /\ is_Some (files s' !! "/tmp/tmp.wav")).
Proof.
  split; eexists; (split; [vm_compute; reflexivity|]);
    (split; [reflexivity|]); (split; [reflexivity|]);
    vm_compute; eexists; reflexivity.
Qed.

Lemma truthy_nonempty (p : string) : p <> "" -> truthy p = true.
Proof. destruct p; [congruence|reflexivity]. Qed.

(** The sibling orchestrator: [convert] removes the temporary file it
    created, once, however the job ends, when [os.remove] itself succeeds. *)
Lemma convert_removes_its_temp {AudioData : Type} (w : world AudioData)
    (self : converter) (fuel : nat) (s s' : state) (r : result string) :
  created s = [] -> removed s = [] -> temp_audio_path s = None ->
  (forall p, remove_error w p = None) ->
  (forall sfx fs, temp_name w sfx fs <> "") ->
  convert w self fuel s = Some (r, s') ->
  forall p, p ∈ created s' -> files s' !! p = None /\ removed s' = [p].
Proof.
  intros Hc Hr Ht Hrm Hname.
  destruct s as [fs c rm t]. cbn in Hc, Hr, Ht. subst c rm t.
  unfold convert, cleanup, extract_audio, Jobs.transcribe_audio, create_docx,
    Docx.create_docx, try_finally, try_except, bind, path_exists, create_temp,
    write_file, remove_file, lift, ret, raise, set_temp_audio_path,
    get_temp_audio_path.
  cbn.
  intros Hrun p Hp.
  repeat (case_match; simplify_eq; cbn in * ).
  all: bool_facts.
  all: try (rewrite Hrm in *; discriminate).
  all: simplify_eq.
  all: try (apply list_elem_of_singleton in Hp; subst p).
  all: try (apply elem_of_nil in Hp; contradiction).
  all: try (rewrite truthy_nonempty in * by apply Hname; discriminate).
  all: try (split; [apply lookup_delete_eq|reflexivity]).
  all: try (exfalso;
            match goal with
            | H : ~ is_Some _ |- _ => apply H
            | H : _ !! _ = None |- _ =>
                apply eq_None_not_Some in H; apply H
            end;
            repeat first [ rewrite lookup_insert_eq; eexists; reflexivity
                         | apply present_insert ]).
Qed.

Lemma convert_keeps_video {AudioData : Type} (w : world AudioData)
    (self : converter) (fuel : nat) (s s' : state) (r : result string) :
  is_Some (files s !! video_path self) -> video_path self ∉ removed s ->
  temp_audio_path s = None ->
  convert w self fuel s = Some (r, s') ->
  is_Some (files s' !! video_path self) /\ video_path self ∉ removed s'.
Proof.
  intros Hin Hrm Ht.
  destruct s as [fs c rm t]. cbn in Hin, Hrm, Ht. subst t.
  unfold convert, cleanup, extract_audio, Jobs.transcribe_audio, create_docx,
    Docx.create_docx, try_finally, try_except, bind, path_exists, create_temp,
    write_file, remove_file, lift, ret, raise, set_temp_audio_path,
    get_temp_audio_path.
  cbn. intros Hrun.
  repeat (case_match; simplify_eq; cbn in * ).
  all: simplify_eq; cbn.
  all: split; [present|unremoved].
Qed.

(** C10.  In the Whisper pipeline the input file, when it exists, still
    exists when [main] ends, however it ends, and was never removed; an
    input with an audio suffix is passed through [ensure_audio] unchanged,
    without creating a file. *)
Theorem input_file_survives {AudioData : Type} (w : world AudioData)
    (input model : string) (output : option string) (s : state) :
  is_Some (files s !! input) -> input ∉ removed s ->
  (exists r s',
      Whisper.main w input model output s = Some (r, s')
      /\ is_Some (files s' !! input) /\ input ∉ removed s')
  /\ (existsb (String.eqb (lower (path_suffix input))) Whisper.audio_suffixes = true ->
      Whisper.ensure_audio w input s = Some (Ok input, s)).
Proof.
  intros Hin Hrm. split; [apply input_survives; assumption|].
  intros Hsfx. unfold Whisper.ensure_audio. rewrite Hsfx. reflexivity.
Qed.

Lemma input_file_survives_witness :
  (exists r s',
      Whisper.main no_model_world "song.mp3" "base" None (disk_with "song.mp3")
      = Some (r, s')
      /\ is_Some (files s' !! "song.mp3") /\ "song.mp3" ∉ removed s')
  /\ Whisper.ensure_audio no_model_world "song.mp3" (disk_with "song.mp3")
     = Some (Ok "song.mp3", disk_with "song.mp3").
Proof.
  destruct (input_file_survives no_model_world "song.mp3" "base" None
              (disk_with "song.mp3")) as [Hmain Hpass].
  - vm_compute. eexists. reflexivity.
  - cbn. apply not_elem_of_nil.
  - split; [exact Hmain|]. apply Hpass. reflexivity.
Defined.

Example convert_cleans_up_after_silent_video :
  exists s',
    convert (calm_world silent_video) (mk_converter "talk.mp4" "talk.docx" "en-US")
            5 (disk_with "talk.mp4")
    = Some (Raise (ValueError "No audio track found in video file"), s')
    /\ created s' = ["/tmp/tmp.wav"]
    /\ removed s' = ["/tmp/tmp.wav"]
    /\ files s' !! "/tmp/tmp.wav" = None.
Proof.
  eexists. split; [vm_compute; reflexivity|].
  split; [reflexivity|]. split; [reflexivity|]. vm_compute. reflexivity.
Qed.

End JobProofs.

(** ** Strings: splitting, joining, stripping *)

Module TextFacts.
Import Docx Vocabulary.

Lemma append_empty (s : string) : (s ++ "")%string = s.
Proof.
  induction s as [|c s IH]; [reflexivity|].
  change (String c (s ++ "")%string = String c s). rewrite IH. reflexivity.
Qed.

Lemma append_assoc (a b c : string) :
  ((a ++ b) ++ c)%string = (a ++ (b ++ c))%string.
Proof.
  induction a as [|x a IH]; [reflexivity|].
  change (String x ((a ++ b) ++ c)%string = String x (a ++ (b ++ c))%string).
  rewrite IH. reflexivity.
Qed.

Lemma truthy_append (a b : string) :
  truthy a = true -> truthy (a ++ b)%string = true.
Proof. destruct a; [discriminate|reflexivity]. Qed.

(** A string in which the separator does not occur is a single piece. *)
Lemma split_go_without sep : forall s cur,
  occurs sep s = false -> split_go sep s 0 cur = [(cur ++ s)%string].
Proof.
  induction s as [|c s IH]; intros cur H.
  - simpl. rewrite append_empty. reflexivity.
  - cbn [occurs] in H. apply orb_false_iff in H. destruct H as [Hp Ho].
    cbn [split_go]. rewrite Hp, IH by exact Ho.
    rewrite append_assoc. reflexivity.
Qed.

Lemma split_without sep s : occurs sep s = false -> split s sep = [s].
Proof. intros H. unfold split. rewrite split_go_without by exact H. reflexivity. Qed.

Lemma split_go_nonempty sep : forall s skip cur, split_go sep s skip cur <> [].
Proof.
  induction s as [|c s IH]; intros skip cur; cbn [split_go]; [done|].
  destruct skip; [|apply IH].
  destruct (String.prefix sep (String c s)); [done|apply IH].
Qed.

Lemma prefix_append sep : forall s,
  String.prefix sep s = true -> exists rest, s = (sep ++ rest)%string.
Proof.
  induction sep as [|a sep IH]; intros s H.
  - exists s. reflexivity.
  - destruct s as [|c s]; [discriminate H|]. cbn [String.prefix] in H.
    destruct (ascii_dec a c) as [<-|]; [|discriminate H].
    destruct (IH s H) as (rest & ->). exists rest. reflexivity.
Qed.

Lemma join_cons sep p l :
  l <> [] -> join sep (p :: l) = (p ++ sep ++ join sep l)%string.
Proof. destruct l; [congruence|reflexivity]. Qed.

(** Joining the pieces gives back what was cut, less the characters still
    to be skipped. *)
Lemma join_split_go sep : sep <> ""%string -> forall s skip cur pre rest,
  s = (pre ++ rest)%string -> String.length pre = skip ->
  join sep (split_go sep s skip cur) = (cur ++ rest)%string.
Proof.
  intros Hsep. induction s as [|c s IH]; intros skip cur pre rest Hs Hlen.
  - destruct pre; [|discriminate Hs]. change (""%string = rest) in Hs. subst rest.
    cbn in Hlen. subst skip.
    cbn. rewrite append_empty. reflexivity.
  - cbn [split_go]. destruct skip as [|k].
    + destruct pre; [|discriminate Hlen]. change (String c s = rest) in Hs. subst rest.
      destruct (String.prefix sep (String c s)) eqn:Hp.
      * rewrite join_cons by apply split_go_nonempty.
        destruct (prefix_append _ _ Hp) as (rest' & Hrest).
        destruct sep as [|a sep']; [congruence|].
        change (String c s = String a (sep' ++ rest')%string) in Hrest.
        injection Hrest as -> ->.
        rewrite (IH (String.length (String a sep') - 1)%nat ""%string sep' rest');
          [reflexivity|reflexivity|cbn; lia].
      * rewrite (IH 0%nat (cur ++ String c "")%string ""%string s);
          [|reflexivity|reflexivity].
        rewrite append_assoc. reflexivity.
    + destruct pre as [|x pre]; [discriminate Hlen|].
      change (String c s = String x (pre ++ rest)%string) in Hs.
      injection Hs as -> ->. injection Hlen as Hlen.
      apply (IH k cur pre rest); [reflexivity|exact Hlen].
Qed.

Lemma join_split s sep : sep <> ""%string -> join sep (split s sep) = s.
Proof.
  intros Hsep. unfold split.
  rewrite (join_split_go sep Hsep s 0%nat ""%string ""%string s); reflexivity.
Qed.

Lemma paragraph_text_new (text : string) : paragraph_text (new_paragraph text) = text.
Proof.
  unfold new_paragraph, paragraph_text. destruct text; [reflexivity|].
  cbn. rewrite append_empty. reflexivity.
Qed.





(** *** Texts python-docx accepts *)

Lemma xml_compatible_append (a b : string) :
  xml_compatible (a ++ b)%string = xml_compatible a && xml_compatible b.
Proof.
  induction a as [|c a IH]; [reflexivity|].
  change (xml_compatible (String c (a ++ b)%string)
          = xml_compatible (String c a) && xml_compatible b).
  cbn [xml_compatible]. rewrite IH, andb_assoc. reflexivity.
Qed.











End TextFacts.

(** ** Document assembly *)

Module DocxProofs.
Import Docx Vocabulary TextFacts.

Example split_hello : split "Hello. World." ". " = ["Hello"; "World."].
Proof. reflexivity. Qed.

Example split_trailing : split "a. " ". " = ["a"; ""].
Proof. reflexivity. Qed.

Example split_empty : split "" ". " = [""].
Proof. reflexivity. Qed.

Example strip_spaces : strip "  a b  " = "a b".
Proof. reflexivity. Qed.







End DocxProofs.

(** * Further properties of the three scripts *)

Module TranscriberExtras.
Import Transcriber Chunks Scenarios Vocabulary TranscriberProofs.

(** What [transcribe_audio] leaves in its trace and in its result, once the
    source is open. *)
Lemma transcribe_audio_unfolded {AudioData : Type} (be : backend AudioData)
    (language : string) (D : Q) (fuel : nat) :
  open_source be = Ok D -> (n_chunks D chunk_duration <= fuel)%nat ->
  exists tr,
    transcribe_audio be language fuel
    = Some (Ok (combine (omap (chunk_text be language D chunk_duration)
                              (chunk_offsets D chunk_duration))), tr)
    /\ record_calls tr
       = map (fun off => (requested_duration D chunk_duration off, off))
             (chunk_offsets D chunk_duration)
    /\ recognize_calls tr
       = omap (fun off => option_map (fun a => (a, language))
                            (chunk_read be D chunk_duration off))
              (chunk_offsets D chunk_duration).
Proof.
  intros Hopen Hfuel. eexists. split; [|split].
  - unfold transcribe_audio. rewrite (transcribe_audio_with_runs be language D);
      [|reflexivity|exact Hopen|exact Hfuel].
    cbv zeta. rewrite iterate_full_text. reflexivity.
  - rewrite iterate_record_calls. reflexivity.
  - rewrite iterate_recognize_calls. reflexivity.
Qed.

Lemma offsets_from_elem C start n off :
  off ∈ offsets_from C start n ->
  exists i, (i < n)%nat /\ off = (start + Z.of_nat i * C)%Z.
Proof.
  unfold offsets_from. intros H. apply list_elem_of_In, in_map_iff in H.
  destruct H as (i & <- & Hi). apply in_seq in Hi. exists i. split; [lia|reflexivity].
Qed.

(** X1.  Once the audio source is open, the window every call to
    [recognizer.record] asks for lies inside the recording: the offset
    passed is at least 0 and smaller than the duration, the duration passed
    is positive and at most [chunk_duration], 30 seconds, and offset plus
    duration does not exceed the duration of the recording.  (This is about
    the arguments the loop passes, not about what the library then reads
    from the stream.) *)
Theorem requested_chunks_are_bounded {AudioData : Type} (be : backend AudioData)
    (language : string) (D : Q) (fuel : nat) :
  open_source be = Ok D -> (n_chunks D chunk_duration <= fuel)%nat ->
  exists r tr,
    transcribe_audio be language fuel = Some (r, tr)
    /\ forall d off, (d, off) ∈ record_calls tr ->
         (0 < d)%Q /\ (d <= inject_Z chunk_duration)%Q
         /\ (0 <= off)%Z /\ (inject_Z off < D)%Q
         /\ (inject_Z off + d <= D)%Q.
Proof.
  intros Hopen Hfuel.
  destruct (transcribe_audio_unfolded be language D fuel Hopen Hfuel)
    as (tr & Hrun & Hrec & _).
  eexists _, tr. split; [exact Hrun|].
  intros d off Hin. rewrite Hrec in Hin.
  apply list_elem_of_In, in_map_iff in Hin. destruct Hin as (off' & Heq & Hoff).
  injection Heq as <- ->. apply list_elem_of_In, offsets_from_elem in Hoff.
  destruct Hoff as (i & Hi & ->). rewrite Z.add_0_l.
  pose proof (before_last D chunk_duration i ltac:(reflexivity) Hi) as Hlt.
  unfold requested_duration.
  split; [|split; [apply Q.le_min_l|split; [unfold chunk_duration; lia|
                                            split; [exact Hlt|]]]].
  - apply Q.min_glb_lt; [reflexivity|].
    revert Hlt. generalize (inject_Z (Z.of_nat i * chunk_duration)). intros q Hlt. lra.
  - pose proof (Q.le_min_r (inject_Z chunk_duration)
                  (D - inject_Z (Z.of_nat i * chunk_duration))) as Hmin.
    revert Hmin.
    generalize (Qmin (inject_Z chunk_duration)
                     (D - inject_Z (Z.of_nat i * chunk_duration))).
    generalize (inject_Z (Z.of_nat i * chunk_duration)). intros q m Hmin. lra.
Qed.

Lemma requested_chunks_are_bounded_witness :
  exists r tr,
    transcribe_audio short_talk "en-US" 2 = Some (r, tr)
    /\ forall d off, (d, off) ∈ record_calls tr ->
         (0 < d)%Q /\ (d <= inject_Z chunk_duration)%Q
         /\ (0 <= off)%Z /\ (inject_Z off < 91 # 2)%Q
         /\ (inject_Z off + d <= 91 # 2)%Q.
Proof.
  apply (requested_chunks_are_bounded short_talk "en-US" (91 # 2) 2).
  - reflexivity.
  - vm_compute. lia.
Defined.

Lemma Qsum_app (l1 l2 : list Q) : (Qsum (l1 ++ l2) == Qsum l1 + Qsum l2)%Q.
Proof.
  induction l1 as [|x l1 IH]; simpl.
  - rewrite Qplus_0_l. reflexivity.
  - rewrite IH. apply Qplus_assoc.
Qed.

(** Full chunks followed by the remainder add up to what was left. *)
Lemma durations_sum (D : Q) (C : Z) (k : nat) : forall start,
  (forall j, (j < k)%nat -> (inject_Z (start + Z.of_nat (S j) * C) < D)%Q) ->
  (D <= inject_Z (start + Z.of_nat (S k) * C))%Q ->
  (Qsum (map (requested_duration D C) (offsets_from C start (S k)))
   == D - inject_Z start)%Q.
Proof.
  induction k as [|k IH]; intros start Hfull Hlast.
  - simpl. rewrite Qplus_0_r.
    replace (start + Z.of_nat 0 * C)%Z with start by lia.
    unfold requested_duration. apply Q.min_r.
    replace (start + Z.of_nat 1 * C)%Z with (start + C)%Z in Hlast by lia.
    rewrite inject_Z_plus in Hlast.
    revert Hlast. generalize (inject_Z start) (inject_Z C). intros a c Hlast. lra.
  - rewrite offsets_from_S.
    change (Qsum (map (requested_duration D C) (start :: offsets_from C (start + C) (S k))))
      with (requested_duration D C start
            + Qsum (map (requested_duration D C) (offsets_from C (start + C) (S k))))%Q.
    rewrite (IH (start + C)%Z).
    + assert (E : (requested_duration D C start == inject_Z C)%Q).
      { unfold requested_duration. apply Q.min_l.
        specialize (Hfull 0%nat ltac:(lia)).
        replace (start + Z.of_nat 1 * C)%Z with (start + C)%Z in Hfull by lia.
        rewrite inject_Z_plus in Hfull.
        revert Hfull. generalize (inject_Z start) (inject_Z C). intros a c Hfull. lra. }
      rewrite E, inject_Z_plus.
      generalize (inject_Z start) (inject_Z C). intros a c. lra.
    + intros j Hj. specialize (Hfull (S j) ltac:(lia)).
      replace (start + C + Z.of_nat (S j) * C)%Z
        with (start + Z.of_nat (S (S j)) * C)%Z by lia.
      exact Hfull.
    + replace (start + C + Z.of_nat (S k) * C)%Z
        with (start + Z.of_nat (S (S k)) * C)%Z by lia.
      exact Hlast.
Qed.

(** An entry of the list of requests, by its index. *)
Lemma request_at (D : Q) (C : Z) (n i : nat) (d : Q) (off : Z) :
  map (fun off => (requested_duration D C off, off)) (offsets_from C 0 n) !! i
  = Some (d, off) ->
  (i < n)%nat /\ off = (Z.of_nat i * C)%Z /\ d = requested_duration D C off.
Proof.
  unfold offsets_from. rewrite map_map.
  change (map ?f ?l) with (f <$> l). rewrite list_lookup_fmap.
  destruct (seq 0 n !! i) as [k|] eqn:Ek; [|discriminate].
  apply lookup_seq in Ek. destruct Ek as [-> Hi]. cbn.
  intros H. injection H as <- <-. split; [exact Hi|]. split; [lia|reflexivity].
Qed.

(** X2.  The windows [transcribe_audio] asks [recognizer.record] for
    adjoin: the first request has offset 0, every later request starts
    where the window of the request before it ends, and the window of the
    last request ends at the duration [D >= 0] of the recording, so that
    the durations asked for add up to [D].  (This is about the arguments
    the loop passes; a library that reads relative to where the stream
    stands reads other windows than the ones asked for.) *)
Theorem requested_windows_adjoin {AudioData : Type}
    (be : backend AudioData) (language : string) (D : Q) (fuel : nat) :
  open_source be = Ok D -> (0 <= D)%Q -> (n_chunks D chunk_duration <= fuel)%nat ->
  exists r tr,
    transcribe_audio be language fuel = Some (r, tr)
    /\ (forall d off, record_calls tr !! 0%nat = Some (d, off) -> off = 0%Z)
    /\ (forall i d off d' off',
          record_calls tr !! i = Some (d, off) ->
          record_calls tr !! S i = Some (d', off') ->
          (inject_Z off + d == inject_Z off')%Q)
    /\ (forall i d off,
          record_calls tr !! i = Some (d, off) ->
          S i = length (record_calls tr) ->
          (inject_Z off + d == D)%Q)
    /\ (Qsum (map fst (record_calls tr)) == D)%Q.
Proof.
  intros Hopen HD Hfuel.
  destruct (transcribe_audio_unfolded be language D fuel Hopen Hfuel)
    as (tr & Hrun & Hrec & _).
  eexists _, tr. split; [exact Hrun|]. rewrite Hrec. unfold chunk_offsets.
  split; [|split; [|split]].
  - intros d off H. apply request_at in H. destruct H as (_ & -> & _). reflexivity.
  - intros i d off d' off' H H'.
    apply request_at in H, H'.
    destruct H as (_ & -> & ->). destruct H' as (Hi & -> & _).
    pose proof (before_last D chunk_duration (S i) ltac:(reflexivity) Hi) as Hlt.
    unfold requested_duration.
    assert (E : (Qmin (inject_Z chunk_duration)
                      (D - inject_Z (Z.of_nat i * chunk_duration))
                 == inject_Z chunk_duration)%Q).
    { apply Q.min_l.
      replace (Z.of_nat (S i) * chunk_duration)%Z
        with (Z.of_nat i * chunk_duration + chunk_duration)%Z in Hlt by lia.
      rewrite inject_Z_plus in Hlt. revert Hlt.
      generalize (inject_Z (Z.of_nat i * chunk_duration)) (inject_Z chunk_duration).
      intros a c Hlt. lra. }
    rewrite E.
    replace (Z.of_nat (S i) * chunk_duration)%Z
      with (Z.of_nat i * chunk_duration + chunk_duration)%Z by lia.
    rewrite inject_Z_plus. reflexivity.
  - intros i d off H Hlast. rewrite length_map in Hlast.
    unfold offsets_from in Hlast. rewrite length_map, length_seq in Hlast.
    apply request_at in H. destruct H as (Hi & -> & ->).
    pose proof (after_last D chunk_duration ltac:(reflexivity)) as Hge.
    rewrite <- Hlast in Hge.
    unfold requested_duration.
    assert (E : (Qmin (inject_Z chunk_duration)
                      (D - inject_Z (Z.of_nat i * chunk_duration))
                 == D - inject_Z (Z.of_nat i * chunk_duration))%Q).
    { apply Q.min_r.
      replace (Z.of_nat (S i) * chunk_duration)%Z
        with (Z.of_nat i * chunk_duration + chunk_duration)%Z in Hge by lia.
      rewrite inject_Z_plus in Hge. revert Hge.
      generalize (inject_Z (Z.of_nat i * chunk_duration)) (inject_Z chunk_duration).
      intros a c Hge. lra. }
    rewrite E. generalize (inject_Z (Z.of_nat i * chunk_duration)). intros a. lra.
  - rewrite map_map. simpl.
    destruct (n_chunks D chunk_duration) as [|k] eqn:En.
    + simpl. pose proof (after_last D chunk_duration ltac:(reflexivity)) as H.
      rewrite En in H. simpl in H. apply Qle_antisym; assumption.
    + change (map (fun x => requested_duration D chunk_duration x))
        with (map (requested_duration D chunk_duration)).
      rewrite durations_sum.
      * unfold Qminus. simpl. rewrite Qplus_0_r. reflexivity.
      * intros j Hj. rewrite Z.add_0_l.
        apply (before_last D chunk_duration (S j)); [reflexivity|lia].
      * rewrite Z.add_0_l. rewrite <- En.
        apply (after_last D chunk_duration). reflexivity.
Qed.

Lemma requested_windows_adjoin_witness :
  exists r tr,
    transcribe_audio short_talk "en-US" 2 = Some (r, tr)
    /\ map snd (record_calls tr) = [0; 30]%Z
    /\ (forall i d off,
          record_calls tr !! i = Some (d, off) ->
          S i = length (record_calls tr) ->
          (inject_Z off + d == 91 # 2)%Q)
    /\ (Qsum (map fst (record_calls tr)) == 91 # 2)%Q.
Proof.
  destruct (requested_windows_adjoin short_talk "en-US" (91 # 2) 2)
    as (r & tr & Hrun & _ & _ & Hlast & Hsum).
  - reflexivity.
  - discriminate.
  - vm_compute. lia.
  - exists r, tr. split; [exact Hrun|]. split; [|split; [exact Hlast|exact Hsum]].
    vm_compute in Hrun. injection Hrun as _ <-. reflexivity.
Defined.

(** X3.  A recording of duration zero (or less) is never read: the loop
    body does not run, no call reaches the recognizer, and the placeholder
    transcript is returned, with any amount of fuel. *)
Theorem empty_audio_asks_nothing {AudioData : Type} (be : backend AudioData)
    (language : string) (D : Q) (fuel : nat) :
  open_source be = Ok D -> (D <= 0)%Q ->
  transcribe_audio be language fuel
  = Some (Ok "[No speech detected in audio]", []).
Proof.
  intros Hopen HD. unfold transcribe_audio, transcribe_audio_with. rewrite Hopen.
  assert (E : Qltb (inject_Z (offset (@initial_state AudioData))) D = false).
  { apply Qltb_false. exact HD. }
  destruct fuel; simpl; simpl in E; rewrite E; reflexivity.
Qed.

Lemma empty_audio_asks_nothing_witness :
  transcribe_audio empty_recording "en-US" 0
  = Some (Ok "[No speech detected in audio]", []).
Proof.
  apply (empty_audio_asks_nothing empty_recording "en-US" 0%Q 0).
  - reflexivity.
  - discriminate.
Defined.

(** X4.  Recognition is attempted for exactly the chunks that could be
    read: the recognition calls are, in offset order, the audio of every
    chunk whose [recognizer.record] returned, each with the converter's
    language; a chunk whose read raised is not sent. *)
Theorem recognition_follows_successful_reads {AudioData : Type}
    (be : backend AudioData) (language : string) (D : Q) (fuel : nat) :
  open_source be = Ok D -> (n_chunks D chunk_duration <= fuel)%nat ->
  exists r tr,
    transcribe_audio be language fuel = Some (r, tr)
    /\ recognize_calls tr
       = omap (fun off =>
                 match record be (Qmin (inject_Z chunk_duration) (D - inject_Z off))
                              off with
                 | Ok audio_chunk => Some (audio_chunk, language)
                 | Raise _ => None
                 end)
              (chunk_offsets D chunk_duration).
Proof.
  intros Hopen Hfuel.
  destruct (transcribe_audio_unfolded be language D fuel Hopen Hfuel)
    as (tr & Hrun & _ & Hcalls).
  eexists _, tr. split; [exact Hrun|].
  rewrite Hcalls. generalize (chunk_offsets D chunk_duration) as offs.
  induction offs as [|off offs IH]; [reflexivity|].
  cbn [omap list_omap]. rewrite IH. unfold chunk_read, requested_duration.
  destruct (record be _ off); reflexivity.
Qed.

Lemma recognition_follows_successful_reads_witness :
  exists r tr,
    transcribe_audio unreadable_mid_stream "en-US" 3 = Some (r, tr)
    /\ recognize_calls tr = [(0%Z, "en-US"); (60%Z, "en-US")].
Proof.
  destruct (recognition_follows_successful_reads unreadable_mid_stream "en-US"
              90%Q 3) as (r & tr & Hrun & Hcalls).
  - reflexivity.
  - vm_compute. lia.
  - exists r, tr. split; [exact Hrun|]. rewrite Hcalls. reflexivity.
Defined.
End TranscriberExtras.

Module TextExtras.
Import Docx Vocabulary Media Jobs Scenarios TextFacts.

Lemma body_loop_paragraphs len : forall rest i,
  Forall (fun p =>
            truthy (paragraph_text p) = true
            /\ par_style p = Normal
            /\ Forall (fun r => font_name r = Some "Calibri"
                                /\ font_size r = Some 11%Z) (runs p))
         (body_loop len i rest).
Proof.
  induction rest as [|para rest IH]; intros i; simpl; [constructor|].
  apply Forall_app. split; [|apply IH].
  destruct (truthy (strip para)) eqn:E; [|constructor].
  constructor; [|constructor].
  unfold new_paragraph. rewrite E.
  destruct ((i <? len - 1)%nat && negb (endswith para ".")); cbn.
  - split; [apply truthy_append; exact E|].
    split; [reflexivity|]. repeat constructor.
  - split; [apply truthy_append; exact E|].
    split; [reflexivity|]. repeat constructor.
Qed.

(** X5.  Whatever the transcript, every body paragraph [create_docx]
    adds has a non-empty text, the default paragraph style, and all its runs
    in Calibri 11 pt. *)
Theorem body_paragraphs_are_never_empty (transcribed_text : string) :
  Forall (fun p =>
            truthy (paragraph_text p) = true
            /\ par_style p = Normal
            /\ Forall (fun r => font_name r = Some "Calibri"
                                /\ font_size r = Some 11%Z) (runs p))
         (body_paragraphs transcribed_text).
Proof. apply body_loop_paragraphs. Qed.

(** X6.  A transcript in which a full stop followed by a space does not
    occur becomes at most one body paragraph: its text stripped of
    surrounding white space, with no full stop added, or no paragraph at all
    when it is blank. *)
Theorem single_sentence_is_one_paragraph (transcribed_text : string) :
  occurs ". " transcribed_text = false ->
  map paragraph_text (body_paragraphs transcribed_text)
  = if truthy (strip transcribed_text) then [strip transcribed_text] else [].
Proof.
  intros H. unfold body_paragraphs. rewrite split_without by exact H.
  cbn [List.length body_loop]. unfold new_paragraph.
  destruct (truthy (strip transcribed_text)) eqn:E; [|reflexivity].
  cbn. rewrite append_empty. reflexivity.
Qed.

Lemma single_sentence_is_one_paragraph_witness :
  map paragraph_text (body_paragraphs "  no full stop here  ")
  = ["no full stop here"].
Proof.
  rewrite (single_sentence_is_one_paragraph "  no full stop here  ");
    reflexivity.
Defined.

Lemma rev_string_nonempty c s : rev_string (String c s) <> "".
Proof.
  cbn [rev_string]. destruct (rev_string s); discriminate.
Qed.

Lemma endswith_cons d s suffix :
  s <> ""%string -> String.length suffix = 1%nat ->
  endswith (String d s) suffix = endswith s suffix.
Proof.
  intros Hs Hl. destruct suffix as [|c [|? ?]]; try discriminate Hl.
  unfold endswith. cbn [rev_string].
  destruct s as [|x s]; [congruence|].
  pose proof (rev_string_nonempty x s) as Hne.
  destruct (rev_string (String x s)) as [|y r]; [congruence|].
  change (String y r ++ String d "")%string with (String y (r ++ String d "")%string).
  change ("" ++ String c "")%string with (String c "").
  cbn [String.prefix]. destruct (ascii_dec c y); [|reflexivity].
  destruct r; reflexivity.
Qed.

Lemma endswith_single d c :
  endswith (String d "") (String c "") = if ascii_dec c d then true else false.
Proof. reflexivity. Qed.

Lemma endswith_append a : endswith (a ++ ".")%string "." = true.
Proof.
  induction a as [|c a IH]; [reflexivity|].
  change (endswith (String c (a ++ ".")%string) "." = true).
  rewrite endswith_cons; [exact IH| |reflexivity].
  destruct a; discriminate.
Qed.

Lemma endswith_lstrip s : endswith s "." = true -> endswith (lstrip s) "." = true.
Proof.
  induction s as [|d s IH]; [discriminate|]. intros H.
  cbn [lstrip]. destruct (is_space d) eqn:Ed; [|exact H].
  apply IH. destruct s as [|x s].
  - exfalso. rewrite endswith_single in H.
    destruct (ascii_dec "." d) as [<-|]; [discriminate Ed|discriminate H].
  - rewrite endswith_cons in H; [exact H|discriminate|reflexivity].
Qed.

Lemma endswith_rstrip s : endswith s "." = true -> rstrip s = s.
Proof.
  induction s as [|d s IH]; [reflexivity|]. intros H.
  cbn [rstrip]. destruct s as [|x s].
  - rewrite endswith_single in H.
    destruct (ascii_dec "." d) as [<-|]; [reflexivity|discriminate H].
  - rewrite endswith_cons in H; [|discriminate|reflexivity].
    rewrite (IH H). reflexivity.
Qed.

Lemma endswith_strip s : endswith s "." = true -> endswith (strip s) "." = true.
Proof.
  intros H. unfold strip. apply endswith_lstrip in H.
  rewrite (endswith_rstrip _ H). exact H.
Qed.

Lemma removelast_app_short {A : Type} (P : A -> Prop) (X Y : list A) :
  Forall P X -> (length Y <= 1)%nat -> Forall P (removelast (X ++ Y)).
Proof.
  intros HX HY. destruct Y as [|y [|? ?]]; [| |cbn in HY; lia].
  - rewrite app_nil_r. clear HY. induction HX as [|x X Hx HX IH]; [constructor|].
    cbn [removelast]. destruct X; [constructor|]. constructor; [exact Hx|exact IH].
  - rewrite removelast_last. exact HX.
Qed.

Lemma body_loop_full_stops len : forall rest i,
  (i + length rest = len)%nat ->
  exists X Y,
    body_loop len i rest = X ++ Y
    /\ Forall (fun p => endswith (paragraph_text p) "." = true) X
    /\ (length Y <= 1)%nat.
Proof.
  induction rest as [|para rest IH]; intros i Hlen.
  - exists [], []. repeat split; [constructor|cbn; lia].
  - cbn [body_loop]. destruct rest as [|next rest].
    + exists [], ((if truthy (strip para)
                   then [set_font (if (i <? len - 1)%nat && negb (endswith para ".")
                                   then add_run (new_paragraph (strip para)) (plain_run ".")
                                   else new_paragraph (strip para))]
                   else []) ++ []).
      split; [reflexivity|]. split; [constructor|].
      destruct (truthy (strip para)); cbn; lia.
    + destruct (IH (S i)) as (X & Y & -> & HX & HY); [cbn in *; lia|].
      eexists (_ ++ X), Y. split; [rewrite app_assoc; reflexivity|].
      split; [|exact HY]. apply Forall_app. split; [|exact HX].
      destruct (truthy (strip para)) eqn:Et; [|constructor].
      constructor; [|constructor].
      assert (Hi : (i <? len - 1)%nat = true) by (apply Nat.ltb_lt; cbn in Hlen; lia).
      rewrite Hi. cbn [andb]. unfold new_paragraph. rewrite Et.
      destruct (endswith para ".") eqn:Ee; cbn.
      * rewrite append_empty. apply endswith_strip. exact Ee.
      * apply endswith_append.
Qed.

(** X7.  The full stop that [split('. ')] removes is put back: every
    body paragraph except possibly the last one ends with a full stop. *)
Theorem sentences_keep_their_full_stop (transcribed_text : string) :
  Forall (fun p => endswith (paragraph_text p) "." = true)
         (removelast (body_paragraphs transcribed_text)).
Proof.
  unfold body_paragraphs.
  destruct (body_loop_full_stops (length (split transcribed_text ". "))
              (split transcribed_text ". ") 0 eq_refl) as (X & Y & -> & HX & HY).
  apply removelast_app_short; assumption.
Qed.
End TextExtras.

Module JobExtras.
Import Media Jobs Scenarios Vocabulary JobProofs.

Lemma transcriber_returns {AudioData : Type} (w : world AudioData) (fuel : nat)
    (p lang : string) :
  enough_fuel w fuel ->
  exists r tr,
    Transcriber.transcribe_audio (recognizer w p) lang fuel = Some (r, tr)
    /\ forall t, r = Ok t -> truthy t = true.
Proof.
  intros Hfuel.
  destruct (Transcriber.open_source (recognizer w p)) as [D|e] eqn:E.
  - destruct (TranscriberExtras.transcribe_audio_unfolded (recognizer w p) lang D fuel
                E (Hfuel p D E)) as (tr & Hrun & _).
    eexists _, tr. split; [exact Hrun|].
    intros t Ht. injection Ht as <-. apply TranscriberProofs.combine_truthy.
  - exists (Raise e), []. split; [|discriminate].
    unfold Transcriber.transcribe_audio, Transcriber.transcribe_audio_with.
    rewrite E. reflexivity.
Qed.

Lemma enough_fuel_calm video : enough_fuel (calm_world video) 2.
Proof.
  intros p D H. cbn in H. injection H as <-. vm_compute. lia.
Qed.

Lemma append_nonempty (a b : string) : a <> "" -> (a ++ b)%string <> "".
Proof. destruct a; [congruence|]. intros _. discriminate. Qed.

Lemma fresh_string_nonempty {A : Type} (m : stringmap A) (s : string) :
  s <> "" -> fresh_string s m <> "".
Proof.
  intros Hs. unfold fresh_string. destruct (m !! s) as [a|]; [|exact Hs].
  generalize 0%N (wf_guard 32 (fresh_string_R_wf s m) 0%N).
  fix FIX 2. intros n [?]; simpl; unfold fresh_string_go at 1; simpl.
  destruct (Some_dec (m !! (s +:+ pretty n))) as [[??]|?]; [apply FIX|].
  apply append_nonempty. exact Hs.
Qed.

Lemma calm_names video sfx fs : temp_name (calm_world video) sfx fs <> "".
Proof.
  apply fresh_string_nonempty, append_nonempty. discriminate.
Qed.

(** X8.  The [finally] block of [convert] never raises, also when
    [os.remove] fails, so it never replaces the outcome of the conversion;
    it creates no file and leaves every path other than the recorded
    temporary audio path as it was. *)
Theorem cleanup_never_raises {AudioData : Type} (w : world AudioData) (s : state) :
  exists s',
    cleanup w s = Some (Ok tt, s')
    /\ created s' = created s
    /\ forall q, temp_audio_path s <> Some q -> files s' !! q = files s !! q.
Proof.
  unfold cleanup, get_temp_audio_path, try_except, bind, path_exists, remove_file, ret.
  cbn.
  repeat (case_match; simplify_eq; cbn in * ).
  all: eexists; (split; [reflexivity|]); (split; [reflexivity|]); cbn.
  all: intros q Hq; try reflexivity.
  all: rewrite lookup_delete_ne; [reflexivity|congruence].
Qed.

Lemma cleanup_never_raises_witness :
  exists s',
    cleanup (calm_world talk_video)
      (mk_st {[ "talk.mp4" := OtherFile; "tmp.wav" := OtherFile ]} ["tmp.wav"] []
             (Some "tmp.wav"))
    = Some (Ok tt, s')
    /\ created s' = ["tmp.wav"]
    /\ files s' !! "talk.mp4" = Some OtherFile.
Proof.
  destruct (cleanup_never_raises (calm_world talk_video)
              (mk_st {[ "talk.mp4" := OtherFile; "tmp.wav" := OtherFile ]}
                     ["tmp.wav"] [] (Some "tmp.wav")))
    as (s' & Hrun & Hc & Hframe).
  exists s'. split; [exact Hrun|]. split; [exact Hc|].
  rewrite (Hframe "talk.mp4"); [reflexivity|discriminate].
Defined.

Ltac frame_lookup :=
  repeat first [ rewrite lookup_delete_ne by congruence
               | rewrite lookup_insert_ne by congruence ];
  try reflexivity.

(** Everything [convert] does to the state, for a converter that was just
    initialised. *)
Lemma convert_effects {AudioData : Type} (w : world AudioData) (self : converter)
    (fuel : nat) (s : state) :
  enough_fuel w fuel -> temp_audio_path s = None ->
  exists r s' l,
    convert w self fuel s = Some (r, s')
    /\ created s' = created s ++ l
    /\ (length l <= 1)%nat
    /\ (forall p, p ∈ l -> files s !! p = None)
    /\ (forall q, q <> output_path self -> q ∉ l -> files s' !! q = files s !! q)
    /\ (exists l', removed s' = removed s ++ l' /\ l' ⊆ l)
    /\ ((forall p, remove_error w p = None) ->
        (forall sfx fs, temp_name w sfx fs <> "") ->
        removed s' = removed s ++ l /\ forall p, p ∈ l -> files s' !! p = None)
    /\ (forall x, r = Ok x ->
          x = output_path self
          /\ exists text tr,
               Transcriber.transcribe_audio
                 (recognizer w (temp_name w ".wav" (files s))) (language self) fuel
               = Some (Ok text, tr)
               /\ truthy text = true
               /\ (output_path self ∉ l ->
                   files s' !! output_path self
                   = Some (DocxFile (Docx.build_document (path_name (video_path self))
                                       (now w) (language self) text)))).
Proof.
  intros Hfuel Ht. destruct s as [fs c rm t]. cbn in Ht. subst t.
  destruct (transcriber_returns w fuel (temp_name w ".wav" fs) (language self) Hfuel)
    as (rt & tr & Hrun & Htruthy).
  pose proof (temp_name_fresh w ".wav" fs) as Hfresh.
  unfold convert, cleanup, extract_audio, Jobs.transcribe_audio, create_docx,
    Docx.create_docx, try_finally, try_except, bind, path_exists, create_temp,
    write_file, remove_file, lift, ret, raise, set_temp_audio_path,
    get_temp_audio_path.
  cbn -[Docx.build_document]. rewrite ?Hrun.
  repeat (case_match; simplify_eq; cbn -[Docx.build_document] in * ;
          rewrite ?Hrun in * ).
  all: simplify_eq.
  all: bool_facts.
  all: try (exfalso;
            match goal with
            | H : ~ is_Some _ |- _ => apply H
            | H : _ !! _ = None |- _ => apply eq_None_not_Some in H; apply H
            end;
            repeat first [ rewrite lookup_insert_eq; eexists; reflexivity
                         | apply present_insert ]; fail).
  all: eexists _, _, _; (split; [reflexivity|]);
    cbn [files created removed temp_audio_path].
  all: (split; [first [reflexivity | symmetry; apply app_nil_r]|]).
  all: (split; [cbn; lia|]).
  all: (split; [intros p Hp;
                first [ apply elem_of_nil in Hp; contradiction
                      | apply list_elem_of_singleton in Hp; subst p; exact Hfresh ]|]).
  all: (split; [intros q Hq Hl; try rewrite not_elem_of_cons in Hl;
                try destruct Hl as [Hl _]; frame_lookup|]).
  all: (split; [eexists; split;
                  [first [reflexivity | symmetry; apply app_nil_r]|set_solver]|]).
  all: split;
    [ intros Hrm Hname;
      first
        [ exfalso;
          match goal with
          | H : remove_error _ _ = Some _ |- _ => rewrite Hrm in H; discriminate H
          end
        | exfalso;
          match goal with
          | H : truthy (temp_name ?w0 ?sfx ?fs0) = false |- _ =>
              pose proof (Hname sfx fs0) as Hne;
              destruct (temp_name w0 sfx fs0); [congruence|discriminate H]
          end
        | split;
          [ first [reflexivity | symmetry; apply app_nil_r]
          | intros p Hp;
            first [ apply elem_of_nil in Hp; contradiction
                  | apply list_elem_of_singleton in Hp; subst p;
                    apply lookup_delete_eq ] ] ]
    | intros x Hx;
      first
        [ discriminate Hx
        | injection Hx as <-; split; [reflexivity|];
          eexists _, tr; split; [reflexivity|];
          split; [apply Htruthy; reflexivity|];
          intros Hout; try rewrite not_elem_of_cons in Hout;
          try destruct Hout as [Hout _];
          try (rewrite lookup_delete_ne by congruence);
          apply lookup_insert_eq ] ].
Qed.

(** X9.  When [os.remove] succeeds and [mkstemp] returns non-empty
    names, [convert] on a newly initialised converter removes exactly the
    temporary files it created (at most one, at a path that did not exist
    before) on every outcome, and none of them exists afterwards. *)
Theorem convert_removes_what_it_created {AudioData : Type} (w : world AudioData)
    (self : converter) (fuel : nat) (s : state) :
  enough_fuel w fuel ->
  (forall p, remove_error w p = None) ->
  (forall sfx fs, temp_name w sfx fs <> "") ->
  temp_audio_path s = None ->
  exists r s' l,
    convert w self fuel s = Some (r, s')
    /\ created s' = created s ++ l
    /\ removed s' = removed s ++ l
    /\ (length l <= 1)%nat
    /\ forall p, p ∈ l -> files s !! p = None /\ files s' !! p = None.
Proof.
  intros Hfuel Hrm Hname Ht.
  destruct (convert_effects w self fuel s Hfuel Ht)
    as (r & s' & l & Hrun & Hc & Hlen & Hfresh & _ & _ & Hclean & _).
  destruct (Hclean Hrm Hname) as [Hr Habsent].
  exists r, s', l. repeat split; auto.
Qed.

Lemma convert_removes_what_it_created_witness :
  exists r s' l,
    convert (calm_world silent_video) (mk_converter "talk.mp4" "talk.docx" "en-US")
            2 (disk_with "talk.mp4")
    = Some (r, s')
    /\ created s' = l /\ removed s' = l /\ (length l <= 1)%nat.
Proof.
  destruct (convert_removes_what_it_created (calm_world silent_video)
              (mk_converter "talk.mp4" "talk.docx" "en-US") 2 (disk_with "talk.mp4"))
    as (r & s' & l & Hrun & Hc & Hr & Hlen & _).
  - apply enough_fuel_calm.
  - reflexivity.
  - apply calm_names.
  - reflexivity.
  - exists r, s', l. auto.
Defined.

(** X10.  [convert] on a newly initialised converter returns or raises,
    and either way every file that existed before, other than the one at
    the output path, is still there with the same content. *)
Theorem convert_touches_only_its_output {AudioData : Type} (w : world AudioData)
    (self : converter) (fuel : nat) (s : state) :
  enough_fuel w fuel -> temp_audio_path s = None ->
  exists r s',
    convert w self fuel s = Some (r, s')
    /\ forall q, q <> output_path self -> is_Some (files s !! q) ->
         files s' !! q = files s !! q.
Proof.
  intros Hfuel Ht.
  destruct (convert_effects w self fuel s Hfuel Ht)
    as (r & s' & l & Hrun & _ & _ & Hfresh & Hframe & _).
  exists r, s'. split; [exact Hrun|].
  intros q Hq [f Hf]. apply Hframe; [exact Hq|].
  intros Hin. apply Hfresh in Hin. congruence.
Qed.

Lemma convert_touches_only_its_output_witness :
  exists r s',
    convert (calm_world talk_video) (mk_converter "talk.mp4" "talk.docx" "en-US")
            2 (disk_with "talk.mp4")
    = Some (r, s')
    /\ files s' !! "talk.mp4" = Some OtherFile.
Proof.
  destruct (convert_touches_only_its_output (calm_world talk_video)
              (mk_converter "talk.mp4" "talk.docx" "en-US") 2 (disk_with "talk.mp4"))
    as (r & s' & Hrun & Hframe).
  - apply enough_fuel_calm.
  - reflexivity.
  - exists r, s'. split; [exact Hrun|].
    rewrite (Hframe "talk.mp4"); [reflexivity|discriminate|].
    vm_compute. eexists. reflexivity.
Defined.

(** X11.  When [convert] returns, it returns the output path, and the
    file at that path (unless that path is a temporary file of the job) is
    the document built from the name of the video, the date, the language
    and the transcript of the extracted audio, which is not empty. *)
Theorem convert_success_writes_the_document {AudioData : Type}
    (w : world AudioData) (self : converter) (fuel : nat) (s : state) :
  enough_fuel w fuel -> temp_audio_path s = None ->
  exists r s',
    convert w self fuel s = Some (r, s')
    /\ forall x, r = Ok x ->
         x = output_path self
         /\ exists text tr,
              Transcriber.transcribe_audio
                (recognizer w (temp_name w ".wav" (files s))) (language self) fuel
              = Some (Ok text, tr)
              /\ truthy text = true
              /\ (output_path self ∉ created s' ->
                  files s' !! output_path self
                  = Some (DocxFile (Docx.build_document (path_name (video_path self))
                                      (now w) (language self) text))).
Proof.
  intros Hfuel Ht.
  destruct (convert_effects w self fuel s Hfuel Ht)
    as (r & s' & l & Hrun & Hc & _ & _ & _ & _ & _ & Hok).
  exists r, s'. split; [exact Hrun|].
  intros x Hx. destruct (Hok x Hx) as (-> & text & tr & Htr & Htext & Hdoc).
  split; [reflexivity|]. exists text, tr. split; [exact Htr|]. split; [exact Htext|].
  intros Hout. apply Hdoc. intros Hin. apply Hout. rewrite Hc.
  apply elem_of_app. right. exact Hin.
Qed.

Lemma convert_success_writes_the_document_witness :
  exists r s',
    convert (calm_world talk_video) (mk_converter "talk.mp4" "talk.docx" "en-US")
            2 (disk_with "talk.mp4")
    = Some (r, s')
    /\ forall x, r = Ok x -> x = "talk.docx".
Proof.
  destruct (convert_success_writes_the_document (calm_world talk_video)
              (mk_converter "talk.mp4" "talk.docx" "en-US") 2 (disk_with "talk.mp4"))
    as (r & s' & Hrun & Hok).
  - apply enough_fuel_calm.
  - reflexivity.
  - exists r, s'. split; [exact Hrun|]. intros x Hx. apply (Hok x Hx).
Defined.

(** X12.  [main] of [video_to_text.py] lets no exception escape: it
    returns 0 or 1, and for a video path that does not exist it returns 1
    and leaves the file system as it was. *)
Theorem main_reports_an_exit_status {AudioData : Type} (w : world AudioData)
    (video : string) (output : option string) (lang : string) (fuel : nat)
    (s : state) :
  enough_fuel w fuel ->
  exists code s',
    main w video output lang fuel s = Some (Ok code, s')
    /\ (code = 0 \/ code = 1)%Z
    /\ (files s !! video = None -> code = 1%Z /\ s' = s).
Proof.
  intros Hfuel.
  unfold main, init, try_except, bind, path_exists, ret, raise, lift.
  destruct (files s !! video) as [f|] eqn:Hv; cbn.
  - assert (Hconv : forall self,
               exists r s', convert w self fuel
                              (mk_st (files s) (created s) (removed s) None)
                            = Some (r, s')).
    { intros self.
      destruct (convert_effects w self fuel
                  (mk_st (files s) (created s) (removed s) None) Hfuel eq_refl)
        as (r & s' & l & Hrun & _).
      exists r, s'. exact Hrun. }
    destruct output as [o|]; [destruct (truthy o)|]; cbn.
    1: destruct (Hconv (mk_converter video o lang)) as ([x|e] & s' & ->).
    3,4: destruct (with_suffix video ".docx") as [out|e] eqn:Hs; cbn.
    3,5: destruct (Hconv (mk_converter video out lang)) as ([x|e'] & s' & ->).
    all: eexists _, _; (split; [reflexivity|]); split; [auto|discriminate].
  - exists 1%Z, s. split; [reflexivity|]. split; [right; reflexivity|].
    intros _. split; reflexivity.
Qed.

Lemma main_reports_an_exit_status_witness :
  exists code s',
    main (calm_world talk_video) "missing.mp4" None "en-US" 2 (disk_with "talk.mp4")
    = Some (Ok code, s')
    /\ code = 1%Z /\ s' = disk_with "talk.mp4".
Proof.
  destruct (main_reports_an_exit_status (calm_world talk_video) "missing.mp4" None
              "en-US" 2 (disk_with "talk.mp4")) as (code & s' & Hrun & _ & Hmissing).
  - apply enough_fuel_calm.
  - exists code, s'. split; [exact Hrun|]. apply Hmissing. reflexivity.
Defined.
End JobExtras.

Module WhisperExtras.
Import Media Jobs Scenarios Vocabulary JobProofs JobExtras.

Ltac fresh_facts w :=
  repeat match goal with
    | |- context [temp_name w ?sfx ?m] =>
        lazymatch goal with
        | H : m !! temp_name w sfx m = None |- _ => fail
        | _ => pose proof (temp_name_fresh w sfx m)
        end
    end;
  repeat match goal with
    | H : <[_ := _]> _ !! _ = None |- _ =>
        pose proof (proj1 (lookup_insert_None _ _ _ _) H) as [? ?]; clear H
    end.

Ltac has_entry :=
  repeat first
    [ assumption
    | rewrite lookup_insert_eq; eexists; reflexivity
    | apply present_insert
    | apply present_delete; [congruence|] ].

Ltac impossible Hrm :=
  exfalso;
  match goal with
  | H : ?x <> ?x |- _ => apply H; reflexivity
  | H : ?p = ?q, Hf : _ !! ?p = None |- _ =>
      apply (proj1 (eq_None_not_Some _) Hf); rewrite H; has_entry; fail
  | H : remove_error _ _ = Some _ |- _ => rewrite Hrm in H; discriminate H
  | H : ~ is_Some _ |- _ => apply H; has_entry; fail
  | H : _ !! _ = None |- _ => apply (proj1 (eq_None_not_Some _) H); has_entry; fail
  end.

(** X13.  When unlinking succeeds, the temporary files [main] of
    [transcribe.py] creates are at distinct paths that did not exist; if it
    returns it has unlinked every one of them once, in the order created; if
    it raises it has unlinked either all of them or none. *)
Theorem whisper_removes_its_temporaries {AudioData : Type} (w : world AudioData)
    (input model : string) (output : option string) (s : state) :
  (forall p, remove_error w p = None) ->
  exists r s' l,
    Whisper.main w input model output s = Some (r, s')
    /\ created s' = created s ++ l
    /\ NoDup l
    /\ (forall p, p ∈ l -> files s !! p = None)
    /\ (removed s' = removed s ++ l
        \/ exists e, r = Raise e /\ removed s' = removed s)
    /\ (forall x, r = Ok x -> removed s' = removed s ++ l).
Proof.
  intros Hrm. destruct s as [fs c rm t].
  unfold Whisper.main, Whisper.ensure_audio, Whisper.normalise_audio,
    Whisper.transcribe_audio, Whisper.save_to_docx, try_finally, bind, path_exists,
    create_temp, write_file, remove_file, lift, ret, raise.
  cbn.
  repeat (case_match; simplify_eq; cbn in * ).
  all: repeat match goal with
         | H : _ && _ = false |- _ => apply andb_false_iff in H; destruct H
         end.
  all: bool_facts.
  all: fresh_facts w.
  all: idtac; first
    [ impossible Hrm
    | eexists _, _, _; (split; [reflexivity|]); cbn;
      split; [first [ reflexivity | symmetry; apply app_nil_r
                    | rewrite <- app_assoc; reflexivity ]|];
      split; [repeat constructor; intros Hin;
              repeat (apply elem_of_cons in Hin;
                      destruct Hin as [Hin|Hin]; [congruence|]);
              apply elem_of_nil in Hin; exact Hin|];
      split; [intros p Hp;
              repeat (apply elem_of_cons in Hp;
                      destruct Hp as [Hp|Hp]; [subst p; assumption|]);
              apply elem_of_nil in Hp; contradiction|];
      split;
      [ first [ left; first [ reflexivity | symmetry; apply app_nil_r
                            | rewrite <- app_assoc; reflexivity ]
              | right; eexists; split; reflexivity ]
      | intros x Hx;
        first [ discriminate Hx
              | reflexivity | symmetry; apply app_nil_r
              | rewrite <- app_assoc; reflexivity ] ] ].
Qed.

Lemma whisper_removes_its_temporaries_witness :
  exists r s' l,
    Whisper.main (calm_world talk_video) "talk.mp4" "base" None (disk_with "talk.mp4")
    = Some (r, s')
    /\ created s' = l /\ NoDup l
    /\ (forall x, r = Ok x -> removed s' = l).
Proof.
  destruct (whisper_removes_its_temporaries (calm_world talk_video) "talk.mp4" "base"
              None (disk_with "talk.mp4"))
    as (r & s' & l & Hrun & Hc & Hnd & _ & _ & Hok); [reflexivity|].
  exists r, s', l. auto.
Defined.

Ltac untouched :=
  repeat first
    [ rewrite lookup_delete_ne by first [congruence | apply fresh_ne; present]
    | rewrite lookup_insert_ne by first [congruence | apply fresh_ne; present] ];
  reflexivity.

(** X14.  [main] of [transcribe.py] returns, exits or raises, and
    either way every file that existed before, other than the one at the
    output path (the [--output] argument, or the input with suffix [.docx]),
    is still there with the same content. *)
Theorem whisper_touches_only_its_output {AudioData : Type} (w : world AudioData)
    (input model : string) (output : option string) (s : state) :
  exists r s',
    Whisper.main w input model output s = Some (r, s')
    /\ forall q, is_Some (files s !! q) ->
         match output with
         | Some o => o <> q
         | None => with_suffix input ".docx" <> Ok q
         end ->
         files s' !! q = files s !! q.
Proof.
  destruct s as [fs c rm t].
  unfold Whisper.main, Whisper.ensure_audio, Whisper.normalise_audio,
    Whisper.transcribe_audio, Whisper.save_to_docx, try_finally, bind, path_exists,
    create_temp, write_file, remove_file, lift, ret, raise.
  cbn.
  repeat (case_match; simplify_eq; cbn in * ).
  all: bool_facts.
  all: idtac; first
    [ exfalso; match goal with H : ?x <> ?x |- _ => apply H; reflexivity end
    | eexists _, _; (split; [reflexivity|]); cbn;
      intros q Hq Hout; untouched ].
Qed.

Lemma whisper_touches_only_its_output_witness :
  exists r s',
    Whisper.main (calm_world talk_video) "talk.mp4" "base" None (disk_with "talk.mp4")
    = Some (r, s')
    /\ files s' !! "talk.mp4" = Some OtherFile.
Proof.
  destruct (whisper_touches_only_its_output (calm_world talk_video) "talk.mp4" "base"
              None (disk_with "talk.mp4")) as (r & s' & Hrun & Hframe).
  exists r, s'. split; [exact Hrun|].
  rewrite (Hframe "talk.mp4"); [reflexivity| |discriminate].
  vm_compute. eexists. reflexivity.
Defined.

(** The paragraphs of a document are accepted exactly when their texts
    are. *)
Lemma accepted_paragraphs (parts : list string) :
  Docx.accepted (map Docx.new_paragraph parts) = forallb Docx.xml_compatible parts.
Proof.
  induction parts as [|p parts IH]; [reflexivity|].
  cbn [map]. change (Docx.accepted (?x :: ?l))
    with (forallb (fun r => Docx.xml_compatible (Docx.run_text r)) (Docx.runs x)
          && Docx.accepted l).
  rewrite IH. cbn [forallb]. f_equal.
  destruct p; [reflexivity|]. cbn. apply andb_true_r.
Qed.

Lemma xml_compatible_pieces (sep : string) (parts : list string) :
  Docx.xml_compatible sep = true ->
  forallb Docx.xml_compatible parts = Docx.xml_compatible (join sep parts).
Proof.
  intros Hsep. induction parts as [|p rest IH]; [reflexivity|].
  destruct rest as [|q rest].
  - cbn. apply andb_true_r.
  - change (join sep (p :: q :: rest)) with (p ++ sep ++ join sep (q :: rest))%string.
    rewrite !TextFacts.xml_compatible_append, Hsep, <- IH. reflexivity.
Qed.

(** X15.  [save_to_docx] either saves a document or changes nothing.  For a
    text without a character that python-docx refuses and a path that can
    be written, it saves a document with at least one paragraph, also for
    the empty text, and a text without a blank line becomes exactly one
    paragraph holding that text.  For a text with such a character it
    raises [ValueError] and no file is written. *)
Theorem saved_document_is_never_empty {AudioData : Type} (w : world AudioData)
    (text output_path : string) (s : state) :
  write_error w output_path = None ->
  (Docx.xml_compatible text = true ->
   exists s' document,
     Whisper.save_to_docx w text output_path s = Some (Ok tt, s')
     /\ files s' !! output_path = Some (DocxFile document)
     /\ document <> []
     /\ (occurs "

" text = false -> map Docx.paragraph_text document = [text]))
  /\ (Docx.xml_compatible text = false ->
      Whisper.save_to_docx w text output_path s
      = Some (Raise Docx.rejected_text, s)).
Proof.
  intros Hw.
  assert (E : Docx.accepted (map Docx.new_paragraph (split text "

")) = Docx.xml_compatible text).
  { rewrite accepted_paragraphs, (xml_compatible_pieces "

") by reflexivity.
    rewrite TextFacts.join_split by discriminate. reflexivity. }
  unfold Whisper.save_to_docx. rewrite E. split; intros Ht; rewrite Ht.
  - unfold write_file. rewrite Hw.
    eexists _, _. split; [reflexivity|]. cbn.
    split; [apply lookup_insert_eq|]. split.
    + unfold split. intros E'. apply map_eq_nil in E'.
      exact (TextFacts.split_go_nonempty _ _ _ _ E').
    + intros Hocc. rewrite TextFacts.split_without by exact Hocc.
      cbn [map]. rewrite TextFacts.paragraph_text_new. reflexivity.
  - reflexivity.
Qed.

Lemma saved_document_is_never_empty_witness :
  (exists s' document,
     Whisper.save_to_docx (calm_world talk_video) "" "out.docx" (disk_with "talk.mp4")
     = Some (Ok tt, s')
     /\ files s' !! "out.docx" = Some (DocxFile document)
     /\ map Docx.paragraph_text document = [""])
  /\ Whisper.save_to_docx (calm_world talk_video) ("a" ++ String "011" "b")
       "out.docx" (disk_with "talk.mp4")
     = Some (Raise Docx.rejected_text, disk_with "talk.mp4").
Proof.
  split.
  - destruct (proj1 (saved_document_is_never_empty (calm_world talk_video) ""
                       "out.docx" (disk_with "talk.mp4") eq_refl) eq_refl)
      as (s' & doc & Hrun & Hfile & _ & Htext).
    exists s', doc. split; [exact Hrun|]. split; [exact Hfile|].
    apply Htext. reflexivity.
  - apply (proj2 (saved_document_is_never_empty (calm_world talk_video)
                    ("a" ++ String "011" "b") "out.docx" (disk_with "talk.mp4")
                    eq_refl)).
    reflexivity.
Defined.

End WhisperExtras.

Module BatchExtras.
Import Media Jobs Scenarios Vocabulary JobProofs JobExtras Batch.

Lemma convert_keeps_existing {AudioData : Type} (w : world AudioData)
    (self : converter) (fuel : nat) (s s' : state) (r : result string) (q : string) :
  is_Some (files s !! q) -> temp_audio_path s = None ->
  convert w self fuel s = Some (r, s') ->
  is_Some (files s' !! q).
Proof.
  intros Hin Ht.
  destruct s as [fs c rm t]. cbn in Hin, Ht. subst t.
  unfold convert, cleanup, extract_audio, Jobs.transcribe_audio, create_docx,
    Docx.create_docx, try_finally, try_except, bind, path_exists, create_temp,
    write_file, remove_file, lift, ret, raise, set_temp_audio_path,
    get_temp_audio_path.
  cbn -[Docx.build_document Docx.accepted]. intros Hrun.
  repeat (case_match; simplify_eq; cbn -[Docx.build_document Docx.accepted] in * ).
  all: simplify_eq; cbn.
  all: present.
Qed.

Lemma convert_keeps_documents {AudioData : Type} (w : world AudioData)
    (self : converter) (fuel : nat) (s s' : state) (r : result string)
    (q : string) (doc : Docx.document) :
  files s !! q = Some (DocxFile doc) -> temp_audio_path s = None ->
  convert w self fuel s = Some (r, s') ->
  exists doc', files s' !! q = Some (DocxFile doc').
Proof.
  intros Hin Ht.
  destruct s as [fs c rm t]. cbn in Hin, Ht. subst t.
  pose proof (temp_name_fresh w ".wav" fs) as Hfresh.
  assert (Hq : q <> temp_name w ".wav" fs) by congruence.
  unfold convert, cleanup, extract_audio, Jobs.transcribe_audio, create_docx,
    Docx.create_docx, try_finally, try_except, bind, path_exists, create_temp,
    write_file, remove_file, lift, ret, raise, set_temp_audio_path,
    get_temp_audio_path.
  cbn -[Docx.build_document Docx.accepted]. intros Hrun.
  repeat (case_match; simplify_eq; cbn -[Docx.build_document Docx.accepted] in * ).
  all: simplify_eq; cbn.
  all: destruct (decide (q = output_path self)) as [->|Hout];
    repeat first [ rewrite lookup_delete_ne by congruence
                 | rewrite lookup_insert_ne by congruence
                 | rewrite lookup_insert_eq ];
    eauto.
Qed.

Lemma truthy_append_r (a b : string) :
  truthy b = true -> truthy (a ++ b)%string = true.
Proof. destruct a; [intros H; exact H|reflexivity]. Qed.

(** The name [batch_convert] gives to an output file is not empty. *)
Lemma output_file_for_truthy (output_dir : option string)
    (output_path video_file out : string) :
  output_file_for output_dir output_path video_file = Ok out -> truthy out = true.
Proof.
  unfold output_file_for, path_join, with_suffix.
  destruct (given output_dir).
  - intros H. injection H as <-.
    assert (Hn : truthy (path_stem video_file ++ "_transcript.docx")%string = true)
      by (apply truthy_append_r; reflexivity).
    destruct (output_path =? ".")%string; [exact Hn|].
    destruct (endswith output_path "/"); apply truthy_append_r;
      [exact Hn|reflexivity].
  - destruct (truthy (path_name video_file)); [|discriminate].
    intros H. injection H as <-. apply truthy_append_r. reflexivity.
Qed.

Lemma step_effects_refl {AudioData : Type} (w : world AudioData) (s : state) :
  step_effects w s s [].
Proof.
  unfold step_effects. rewrite !app_nil_r.
  split; [auto|]. split; [eauto|]. split; [reflexivity|]. auto.
Qed.

Lemma step_effects_trans {AudioData : Type} (w : world AudioData)
    (s1 s2 s3 : state) (l1 l2 : list string) :
  step_effects w s1 s2 l1 -> step_effects w s2 s3 l2 ->
  step_effects w s1 s3 (l1 ++ l2).
Proof.
  intros (Hk1 & Hd1 & Hc1 & Hr1) (Hk2 & Hd2 & Hc2 & Hr2).
  split; [intros q Hq; apply Hk2, Hk1, Hq|].
  split; [intros q doc Hq; destruct (Hd1 q doc Hq) as [doc1 H1];
          exact (Hd2 q doc1 H1)|].
  split; [rewrite Hc2, Hc1, app_assoc; reflexivity|].
  intros Hrm Hname. rewrite (Hr2 Hrm Hname), (Hr1 Hrm Hname), app_assoc.
  reflexivity.
Qed.

Lemma bind_run {A B : Type} (m : M A) (k : A -> M B) (s : state) :
  bind m k s
  = match m s with
    | None => None
    | Some (Ok a, s') => k a s'
    | Some (Raise e, s') => Some (Raise e, s')
    end.
Proof. reflexivity. Qed.

Section Steps.
Context {AudioData : Type} (bw : batch_world AudioData).
Variables (output_dir : option string) (output_path lang : string) (fuel : nat).
Hypothesis Hfuel : enough_fuel (job_world bw) fuel.

(** A conversion as the loop runs it, on its own: the converter is
    initialised and run. *)
Lemma conversion_alone (video_file out : string) (s : state) :
  truthy out = true ->
  exists r s' l,
    (let! converter := init video_file (Some out) lang in
     convert (job_world bw) converter fuel) s = Some (r, s')
    /\ step_effects (job_world bw) s s' l
    /\ (forall x, r = Ok x ->
          is_Some (files s' !! video_file)
          /\ (out ∉ l -> exists doc, files s' !! out = Some (DocxFile doc))).
Proof.
  intros Hout. unfold init, bind, path_exists, ret, raise, lift.
  destruct (decide (is_Some (files s !! video_file))) as [Hv|Hv].
  - rewrite (bool_decide_eq_true_2 _ Hv). cbn [negb]. rewrite Hout.
    destruct (convert_effects (job_world bw) (mk_converter video_file out lang) fuel
                (mk_st (files s) (created s) (removed s) None) Hfuel eq_refl)
      as (r & s' & l & Hrun & Hc & _ & _ & _ & _ & Hclean & Hok).
    exists r, s', l. split; [exact Hrun|]. split.
    + split; [|split; [|split]].
      * intros q Hq.
        exact (convert_keeps_existing (job_world bw) _ fuel
                 (mk_st (files s) (created s) (removed s) None) s' r q
                 Hq eq_refl Hrun).
      * intros q doc Hq.
        exact (convert_keeps_documents (job_world bw) _ fuel
                 (mk_st (files s) (created s) (removed s) None) s' r q doc
                 Hq eq_refl Hrun).
      * exact Hc.
      * intros Hrm Hname. apply (Hclean Hrm Hname).
    + intros x Hx. split.
      * exact (convert_keeps_existing (job_world bw) _ fuel
                 (mk_st (files s) (created s) (removed s) None) s' r video_file
                 Hv eq_refl Hrun).
      * intros Hl. destruct (Hok x Hx) as (_ & text & tr & _ & _ & Hdoc).
        eexists. exact (Hdoc Hl).
  - rewrite (bool_decide_eq_false_2 _ Hv). cbn [negb].
    eexists _, s, []. split; [reflexivity|].
    split; [apply step_effects_refl|]. intros x Hx. discriminate Hx.
Qed.

(** One file of the batch: what is printed about it and what happens to
    the disk. *)
Lemma process_step (t : tally) (video_file : string) (s : state) :
  exists v s' l,
    process bw output_dir output_path lang fuel t video_file s
    = Some (Ok (record_verdict t video_file v), s')
    /\ step_effects (job_world bw) s s' l
    /\ (v = NotOverwritten -> s' = s)
    /\ (forall out, v = Converted out ->
          output_file_for output_dir output_path video_file = Ok out
          /\ is_Some (files s' !! video_file)
          /\ (out ∉ l -> exists doc, files s' !! out = Some (DocxFile doc))).
Proof.
  assert (Hdone : forall v, (forall out, v <> Converted out) ->
            exists s' l,
              Some (Ok (record_verdict t video_file v), s)
              = Some (Ok (record_verdict t video_file v), s')
              /\ step_effects (job_world bw) s s' l
              /\ (v = NotOverwritten -> s' = s)
              /\ (forall out, v = Converted out ->
                    output_file_for output_dir output_path video_file = Ok out
                    /\ is_Some (files s' !! video_file)
                    /\ (out ∉ l ->
                        exists doc, files s' !! out = Some (DocxFile doc)))).
  { intros v Hv. exists s, []. split; [reflexivity|].
    split; [apply step_effects_refl|]. split; [auto|].
    intros out E. destruct (Hv out E). }
  unfold process, try_except.
  rewrite bind_run. unfold lift at 1.
  destruct (output_file_for output_dir output_path video_file) as [out|e] eqn:Eout;
    [|exists (Failed e); exact (Hdone (Failed e) ltac:(intros; discriminate))].
  pose proof (output_file_for_truthy _ _ _ _ Eout) as Htruthy.
  assert (Hconv :
    exists v s' l,
      match (let! converter := init video_file (Some out) lang in
             do! convert (job_world bw) converter fuel in
             ret (mk_tally (successful t + 1) (failed t) (failed_files t)
                           (report t ++ [(video_file, Converted out)]))) s with
      | Some (Raise e, s'0) =>
          ret (mk_tally (successful t) (failed t + 1)
                 (failed_files t ++ [(path_name video_file, exn_message e)])
                 (report t ++ [(video_file, Failed e)])) s'0
      | other => other
      end
      = Some (Ok (record_verdict t video_file v), s')
      /\ step_effects (job_world bw) s s' l
      /\ (v = NotOverwritten -> s' = s)
      /\ (forall out0, v = Converted out0 ->
            Ok out = Ok out0
            /\ is_Some (files s' !! video_file)
            /\ (out0 ∉ l -> exists doc, files s' !! out0 = Some (DocxFile doc)))).
  { destruct (conversion_alone video_file out s Htruthy)
      as (r & s' & l & Hrun & Heff & Hok).
    rewrite bind_run.
    rewrite bind_run in Hrun.
    destruct (init video_file (Some out) lang s) as [[[c|e] s0]|] eqn:Ei.
    - rewrite bind_run. rewrite Hrun.
      destruct r as [x|e].
      + exists (Converted out), s', l. split; [reflexivity|].
        split; [exact Heff|]. split; [discriminate|].
        intros out0 E. injection E as <-. split; [reflexivity|].
        exact (Hok x eq_refl).
      + exists (Failed e), s', l. split; [reflexivity|].
        split; [exact Heff|]. split; [discriminate|]. intros out0 E. discriminate E.
    - injection Hrun as <- <-.
      exists (Failed e), s0, l. split; [reflexivity|].
      split; [exact Heff|]. split; [discriminate|]. intros out0 E. discriminate E.
    - discriminate Hrun. }
  rewrite bind_run. unfold path_exists at 1.
  destruct (bool_decide (is_Some (files s !! out))).
  - rewrite bind_run. rewrite bind_run. unfold lift at 1.
    destruct (answer bw (length (report t)) out) as [response|e];
      [|exists (Failed e); exact (Hdone (Failed e) ltac:(intros; discriminate))].
    unfold ret at 1.
    destruct (lower response =? "y"); cbn [negb]; [exact Hconv|].
    exists NotOverwritten.
    exact (Hdone NotOverwritten ltac:(intros; discriminate)).
  - rewrite bind_run. unfold ret at 1. cbn [negb]. exact Hconv.
Qed.

Lemma consistent_record (t : tally) (video_file : string) (v : verdict) :
  consistent t -> consistent (record_verdict t video_file v).
Proof.
  intros (Hs & Hf & Hn). unfold consistent, conversions, failures, failure_lines in *.
  destruct v; cbn [record_verdict successful failed failed_files report];
    rewrite !omap_app; cbn; rewrite ?app_nil_r, ?length_app; cbn;
    repeat split; try assumption; try lia.
  rewrite Hn. reflexivity.
Qed.

Lemma report_record (t : tally) (video_file : string) (v : verdict) :
  report (record_verdict t video_file v) = report t ++ [(video_file, v)].
Proof. destruct v; reflexivity. Qed.

Lemma process_all_run (video_files : list string) : forall (t : tally) (s : state),
  exists t' s' l entries,
    process_all bw output_dir output_path lang fuel t video_files s
    = Some (Ok t', s')
    /\ report t' = report t ++ entries
    /\ map fst entries = video_files
    /\ (consistent t -> consistent t')
    /\ step_effects (job_world bw) s s' l
    /\ (forall video_file out,
          (video_file, Converted out) ∈ entries ->
          output_file_for output_dir output_path video_file = Ok out
          /\ is_Some (files s' !! video_file)
          /\ (out ∉ l -> exists doc, files s' !! out = Some (DocxFile doc))).
Proof.
  induction video_files as [|video_file rest IH]; intros t s.
  - exists t, s, [], []. rewrite !app_nil_r. cbn.
    split; [reflexivity|]. split; [reflexivity|]. split; [reflexivity|].
    split; [auto|]. split; [apply step_effects_refl|].
    intros v out Hin. apply elem_of_nil in Hin. contradiction.
  - cbn [process_all]. rewrite bind_run.
    destruct (process_step t video_file s)
      as (v & s1 & l1 & -> & Heff1 & _ & Hconv1).
    destruct (IH (record_verdict t video_file v) s1)
      as (t' & s' & l2 & entries & -> & Hrep & Hfst & Hcons & Heff2 & Hconv2).
    exists t', s', (l1 ++ l2), ((video_file, v) :: entries).
    split; [reflexivity|].
    split; [rewrite Hrep, report_record, <- app_assoc; reflexivity|].
    split; [cbn; rewrite Hfst; reflexivity|].
    split; [intros Ht; apply Hcons, consistent_record, Ht|].
    split; [exact (step_effects_trans _ _ _ _ _ _ Heff1 Heff2)|].
    intros video_file0 out Hin. apply elem_of_cons in Hin.
    destruct Hin as [E|Hin].
    + injection E as -> <-. destruct (Hconv1 out eq_refl) as (Ho & Hv & Hdoc).
      destruct Heff2 as (Hk2 & Hd2 & _).
      split; [exact Ho|]. split; [apply Hk2, Hv|].
      intros Hl. rewrite not_elem_of_app in Hl. destruct Hl as [Hl1 _].
      destruct (Hdoc Hl1) as [doc Hdoc1]. exact (Hd2 out doc Hdoc1).
    + destruct (Hconv2 video_file0 out Hin) as (Ho & Hv & Hdoc).
      split; [exact Ho|]. split; [exact Hv|].
      intros Hl. rewrite not_elem_of_app in Hl. destruct Hl as [_ Hl2].
      exact (Hdoc Hl2).
Qed.
End Steps.

(** X18.  The loop of [batch_convert] handles every file found, in
    order, exactly once, and an exception while converting one file never
    stops the batch: the loop always finishes.  [successful] is the number
    of files reported as converted, [failed] the number reported as failed,
    and [failed_files] holds the name and the message of each failure, in
    order.  What is reported as converted was converted: the name of its
    output is the one the batch derives from the video, the video exists
    when the batch ends, and so does the output, as a document, unless the
    output path is one of the temporary files of the batch. *)
Theorem batch_reports_every_file {AudioData : Type} (bw : batch_world AudioData)
    (output_dir : option string) (output_path lang : string) (fuel : nat)
    (video_files : list string) (s : state) :
  enough_fuel (job_world bw) fuel ->
  exists t s',
    process_all bw output_dir output_path lang fuel no_tally video_files s
    = Some (Ok t, s')
    /\ map fst (report t) = video_files
    /\ successful t = Z.of_nat (length (conversions (report t)))
    /\ failed t = Z.of_nat (length (failures (report t)))
    /\ failed_files t = failure_lines (report t)
    /\ (forall video_file output_file,
          (video_file, Converted output_file) ∈ report t ->
          output_file_for output_dir output_path video_file = Ok output_file
          /\ is_Some (files s' !! video_file)
          /\ (output_file ∉ created s' ->
              exists doc, files s' !! output_file = Some (DocxFile doc))).
Proof.
  intros Hfuel.
  destruct (process_all_run bw output_dir output_path lang fuel Hfuel video_files
              no_tally s)
    as (t & s' & l & entries & Hrun & Hrep & Hfst & Hcons & Heff & Hconv).
  cbn in Hrep. subst entries.
  exists t, s'. split; [exact Hrun|]. split; [exact Hfst|].
  destruct Hcons as (Hs & Hf & Hl); [repeat split|].
  split; [exact Hs|]. split; [exact Hf|]. split; [exact Hl|].
  intros video_file out Hin. destruct (Hconv video_file out Hin) as (Ho & Hv & Hdoc).
  split; [exact Ho|]. split; [exact Hv|].
  intros Hc. apply Hdoc. intros Hl'. apply Hc.
  destruct Heff as (_ & _ & -> & _). apply elem_of_app. right. exact Hl'.
Qed.

Lemma batch_reports_every_file_witness :
  exists t s',
    process_all (calm_batch talk_video []) None "videos" "en-US" 2 no_tally
      ["videos/a.mp4"; "videos/missing.mp4"] (disk_with "videos/a.mp4")
    = Some (Ok t, s')
    /\ report t
       = [("videos/a.mp4", Converted "videos/a.docx");
          ("videos/missing.mp4",
           Failed (FileNotFoundError "Video file not found: videos/missing.mp4"))]
    /\ successful t = 1%Z /\ failed t = 1%Z
    /\ failed_files t
       = [("missing.mp4", "Video file not found: videos/missing.mp4")]
    /\ is_Some (files s' !! "videos/a.mp4")
    /\ exists doc, files s' !! "videos/a.docx" = Some (DocxFile doc).
Proof.
  destruct (batch_reports_every_file (calm_batch talk_video []) None "videos" "en-US"
              2 ["videos/a.mp4"; "videos/missing.mp4"] (disk_with "videos/a.mp4"))
    as (t & s' & Hrun & _ & Hs & Hf & Hl & Hconv).
  - apply enough_fuel_calm.
  - assert (Hreport : report t
      = [("videos/a.mp4", Converted "videos/a.docx");
         ("videos/missing.mp4",
          Failed (FileNotFoundError "Video file not found: videos/missing.mp4"))]).
    { vm_compute in Hrun. injection Hrun as <- _. reflexivity. }
    assert (Hcreated : created s' = ["/tmp/tmp.wav"]).
    { vm_compute in Hrun. injection Hrun as _ <-. reflexivity. }
    destruct (Hconv "videos/a.mp4" "videos/a.docx") as (_ & Hv & Hdoc).
    { rewrite Hreport. left. }
    exists t, s'. split; [exact Hrun|]. split; [exact Hreport|].
    rewrite Hreport in Hs, Hf, Hl.
    split; [exact Hs|]. split; [exact Hf|]. split; [exact Hl|].
    split; [exact Hv|]. apply Hdoc. rewrite Hcreated.
    intros Hin. apply list_elem_of_singleton in Hin. discriminate Hin.
Defined.

(** X19.  When [os.remove] succeeds and [mkstemp] returns non-empty
    names, a batch leaves no temporary file behind: the files removed during
    the loop are exactly the temporary files created during it, in the same
    order, whatever succeeded or failed. *)
Theorem batch_removes_its_temporaries {AudioData : Type}
    (bw : batch_world AudioData) (output_dir : option string)
    (output_path lang : string) (fuel : nat) (video_files : list string)
    (s : state) :
  enough_fuel (job_world bw) fuel ->
  (forall p, remove_error (job_world bw) p = None) ->
  (forall sfx fs, temp_name (job_world bw) sfx fs <> "") ->
  exists t s' l,
    process_all bw output_dir output_path lang fuel no_tally video_files s
    = Some (Ok t, s')
    /\ created s' = created s ++ l
    /\ removed s' = removed s ++ l.
Proof.
  intros Hfuel Hrm Hname.
  destruct (process_all_run bw output_dir output_path lang fuel Hfuel video_files
              no_tally s)
    as (t & s' & l & entries & Hrun & _ & _ & _ & (_ & _ & Hc & Hr) & _).
  exists t, s', l. split; [exact Hrun|]. split; [exact Hc|]. apply Hr; assumption.
Qed.

Lemma batch_removes_its_temporaries_witness :
  exists t s' l,
    process_all (calm_batch talk_video []) None "videos" "en-US" 2 no_tally
      ["videos/a.mp4"; "videos/missing.mp4"] (disk_with "videos/a.mp4")
    = Some (Ok t, s')
    /\ created s' = l /\ removed s' = l.
Proof.
  destruct (batch_removes_its_temporaries (calm_batch talk_video []) None "videos"
              "en-US" 2 ["videos/a.mp4"; "videos/missing.mp4"]
              (disk_with "videos/a.mp4"))
    as (t & s' & l & Hrun & Hc & Hr).
  - apply enough_fuel_calm.
  - reflexivity.
  - apply calm_names.
  - exists t, s', l. auto.
Defined.

(** X20.  [batch_convert] returns or raises, and either way every path
    that existed before still exists: it may overwrite a file but never
    deletes the videos or anything else that was there. *)
Theorem batch_keeps_existing_files {AudioData : Type} (bw : batch_world AudioData)
    (input_dir : string) (output_dir : option string) (pattern lang : string)
    (recursive : bool) (fuel : nat) (s : state) :
  enough_fuel (job_world bw) fuel ->
  exists r s',
    batch_convert bw input_dir output_dir pattern lang recursive fuel s
    = Some (r, s')
    /\ forall q, is_Some (files s !! q) -> is_Some (files s' !! q).
Proof.
  intros Hfuel.
  assert (Hloop : forall out s1,
    (forall q, is_Some (files s !! q) -> is_Some (files s1 !! q)) ->
    exists r s',
      (let! video_files := list_videos bw recursive input_dir pattern in
       match video_files with
       | [] => ret 1%Z
       | _ =>
           let! t := process_all bw output_dir out lang fuel no_tally video_files in
           ret (if (failed t =? 0)%Z then 0%Z else 1%Z)
       end) s1 = Some (r, s')
      /\ forall q, is_Some (files s !! q) -> is_Some (files s' !! q)).
  { intros out s1 H1. rewrite bind_run. unfold list_videos at 1.
    destruct (glob bw recursive input_dir pattern (files s1)) as [|v vs] eqn:Eg.
    - eexists _, _. split; [reflexivity|exact H1].
    - rewrite bind_run.
      destruct (process_all_run bw output_dir out lang fuel Hfuel (v :: vs)
                  no_tally s1)
        as (t & s' & l & entries & -> & _ & _ & _ & (Hkeep & _) & _).
      eexists _, _. split; [reflexivity|].
      intros q Hq. apply Hkeep, H1, Hq. }
  unfold batch_convert. rewrite bind_run. unfold path_exists at 1.
  destruct (bool_decide (is_Some (files s !! input_dir))); cbn [negb];
    [|eexists _, _; split; [reflexivity|auto]].
  destruct (is_dir bw input_dir); cbn [negb];
    [|eexists _, _; split; [reflexivity|auto]].
  rewrite bind_run.
  destruct output_dir as [o|]; [destruct (truthy o) eqn:Eo|].
  - rewrite bind_run. unfold make_directory at 1.
    destruct (mkdir bw o (files s)) as [fs'|e] eqn:Em.
    + unfold ret at 1. apply Hloop. cbn. intros q [f Hf]. exists f.
      eapply lookup_weaken; [exact Hf|]. eapply mkdir_grows. exact Em.
    + eexists _, _. split; [reflexivity|auto].
  - unfold ret at 1. apply Hloop. auto.
  - unfold ret at 1. apply Hloop. auto.
Qed.

Lemma batch_keeps_existing_files_witness :
  exists r s',
    batch_convert (calm_batch talk_video ["videos/a.mp4"]) "videos" None "*.mp4"
      "en-US" false 2
      (mk_st {[ "videos" := OtherFile; "videos/a.mp4" := OtherFile ]} [] [] None)
    = Some (r, s')
    /\ is_Some (files s' !! "videos/a.mp4").
Proof.
  destruct (batch_keeps_existing_files (calm_batch talk_video ["videos/a.mp4"])
              "videos" None "*.mp4" "en-US" false 2
              (mk_st {[ "videos" := OtherFile; "videos/a.mp4" := OtherFile ]}
                     [] [] None))
    as (r & s' & Hrun & Hkeep).
  - apply enough_fuel_calm.
  - exists r, s'. split; [exact Hrun|]. apply Hkeep.
    vm_compute. eexists. reflexivity.
Defined.

(** X21.  Barring a keyboard interrupt, [main] of [batch_convert.py]
    returns 0 or 1 and lets no exception escape; when the input directory
    does not exist or is not a directory it returns 1 and leaves the file
    system as it was. *)
Theorem batch_exit_status_is_reported {AudioData : Type}
    (bw : batch_world AudioData) (input_dir : string) (output_dir : option string)
    (pattern lang : string) (recursive : bool) (fuel : nat) (s : state) :
  enough_fuel (job_world bw) fuel ->
  exists code s',
    Batch.main bw input_dir output_dir pattern lang recursive fuel s
    = Some (Ok code, s')
    /\ (code = 0 \/ code = 1)%Z
    /\ (files s !! input_dir = None \/ is_dir bw input_dir = false ->
        code = 1%Z /\ s' = s).
Proof.
  intros Hfuel.
  assert (Hloop : forall out s1,
    exists code s',
      match
        (let! video_files := list_videos bw recursive input_dir pattern in
         match video_files with
         | [] => ret 1%Z
         | _ =>
             let! t := process_all bw output_dir out lang fuel no_tally video_files in
             ret (if (failed t =? 0)%Z then 0%Z else 1%Z)
         end) s1
      with
      | Some (Raise e, s'0) => ret 1%Z s'0
      | other => other
      end = Some (Ok code, s')
      /\ (code = 0 \/ code = 1)%Z).
  { intros out s1. rewrite bind_run. unfold list_videos at 1.
    destruct (glob bw recursive input_dir pattern (files s1)) as [|v vs] eqn:Eg.
    - eexists _, _. split; [reflexivity|right; reflexivity].
    - rewrite bind_run.
      destruct (process_all_run bw output_dir out lang fuel Hfuel (v :: vs)
                  no_tally s1) as (t & s' & l & entries & -> & _).
      eexists _, _. split; [reflexivity|].
      destruct (failed t =? 0)%Z; [left|right]; reflexivity. }
  unfold Batch.main, try_except, batch_convert.
  rewrite bind_run. unfold path_exists at 1.
  destruct (files s !! input_dir) as [f|] eqn:Hin; cbn [bool_decide negb].
  2: { rewrite bool_decide_eq_false_2 by (intros [? ?]; discriminate).
       cbn [negb]. exists 1%Z, s. split; [reflexivity|].
       split; [right; reflexivity|auto]. }
  rewrite bool_decide_eq_true_2 by (eexists; reflexivity). cbn [negb].
  destruct (is_dir bw input_dir) eqn:Hd; cbn [negb].
  2: { exists 1%Z, s. split; [reflexivity|]. split; [right; reflexivity|auto]. }
  assert (Hno : files s !! input_dir = None \/ true = false ->
                forall code s', (code = 0 \/ code = 1)%Z ->
                (code = 0 \/ code = 1)%Z /\
                (Some f = None \/ true = false -> code = 1%Z /\ s' = s)).
  { intros _ code s' Hc. split; [exact Hc|]. intros [H|H]; discriminate. }
  rewrite bind_run.
  destruct output_dir as [o|]; [destruct (truthy o) eqn:Eo|].
  - rewrite bind_run. unfold make_directory at 1.
    destruct (mkdir bw o (files s)) as [fs'|e] eqn:Em.
    + unfold ret at 1. destruct (Hloop o (mk_st fs' (created s) (removed s)
                                            (temp_audio_path s)))
        as (code & s' & -> & Hc).
      exists code, s'. split; [reflexivity|]. split; [exact Hc|].
      intros [H|H]; discriminate.
    + exists 1%Z, s. split; [reflexivity|]. split; [right; reflexivity|].
      intros [H|H]; discriminate.
  - unfold ret at 1. destruct (Hloop input_dir s) as (code & s' & -> & Hc).
    exists code, s'. split; [reflexivity|]. split; [exact Hc|].
    intros [H|H]; discriminate.
  - unfold ret at 1. destruct (Hloop input_dir s) as (code & s' & -> & Hc).
    exists code, s'. split; [reflexivity|]. split; [exact Hc|].
    intros [H|H]; discriminate.
Qed.

Lemma batch_exit_status_is_reported_witness :
  exists code s',
    Batch.main (calm_batch talk_video ["videos/a.mp4"]) "nowhere" None "*.mp4"
      "en-US" false 2 (disk_with "videos/a.mp4")
    = Some (Ok code, s')
    /\ code = 1%Z /\ s' = disk_with "videos/a.mp4".
Proof.
  destruct (batch_exit_status_is_reported (calm_batch talk_video ["videos/a.mp4"])
              "nowhere" None "*.mp4" "en-US" false 2 (disk_with "videos/a.mp4"))
    as (code & s' & Hrun & _ & Hearly).
  - apply enough_fuel_calm.
  - exists code, s'. split; [exact Hrun|]. apply Hearly. left. reflexivity.
Defined.

(** X22.  When the output file of a video already exists and the answer
    to the overwrite question is anything but [y] or [Y], the video is
    skipped: nothing is converted, the file system is unchanged, and the file
    counts neither as successful nor as failed. *)
Theorem declined_overwrite_changes_nothing {AudioData : Type}
    (bw : batch_world AudioData) (output_dir : option string)
    (output_path lang : string) (fuel : nat) (t : tally)
    (video_file out response : string) (s : state) :
  output_file_for output_dir output_path video_file = Ok out ->
  is_Some (files s !! out) ->
  answer bw (length (report t)) out = Ok response ->
  lower response <> "y" ->
  process bw output_dir output_path lang fuel t video_file s
  = Some (Ok (mk_tally (successful t) (failed t) (failed_files t)
                       (report t ++ [(video_file, NotOverwritten)])), s).
Proof.
  intros Hout Hpresent Hanswer Hno.
  unfold process, try_except.
  rewrite bind_run. unfold lift at 1. rewrite Hout.
  rewrite bind_run. unfold path_exists at 1.
  rewrite bool_decide_eq_true_2 by exact Hpresent.
  rewrite bind_run, bind_run. unfold lift at 1. rewrite Hanswer.
  unfold ret at 1.
  apply String.eqb_neq in Hno. rewrite Hno. reflexivity.
Qed.

Lemma declined_overwrite_changes_nothing_witness :
  process (calm_batch talk_video []) None "videos" "en-US" 2 no_tally
    "videos/a.mp4" (disk_with "videos/a.docx")
  = Some (Ok (mk_tally 0 0 [] [("videos/a.mp4", NotOverwritten)]),
          disk_with "videos/a.docx").
Proof.
  apply (declined_overwrite_changes_nothing (calm_batch talk_video []) None "videos"
           "en-US" 2 no_tally "videos/a.mp4" "videos/a.docx" "n"
           (disk_with "videos/a.docx")).
  - reflexivity.
  - vm_compute. eexists. reflexivity.
  - reflexivity.
  - discriminate.
Defined.

(** X23.  For a video whose output file does not exist yet, the loop runs
    the conversion on its own terms (a converter for the video and the
    output name the batch derives, then [convert]) and counts the file by
    what that conversion does: as successful when it returns, and as
    failed, with the message of the exception, when creating the converter
    or converting raises.  The disk is left as the conversion left it. *)
Theorem batch_counts_what_convert_returns {AudioData : Type}
    (bw : batch_world AudioData) (output_dir : option string)
    (output_path lang : string) (fuel : nat) (t : tally)
    (video_file out : string) (s : state) :
  enough_fuel (job_world bw) fuel ->
  output_file_for output_dir output_path video_file = Ok out ->
  files s !! out = None ->
  exists r s',
    (let! converter := init video_file (Some out) lang in
     convert (job_world bw) converter fuel) s = Some (r, s')
    /\ process bw output_dir output_path lang fuel t video_file s
       = Some (Ok match r with
                  | Ok _ =>
                      mk_tally (successful t + 1) (failed t) (failed_files t)
                        (report t ++ [(video_file, Converted out)])
                  | Raise e =>
                      mk_tally (successful t) (failed t + 1)
                        (failed_files t ++ [(path_name video_file, exn_message e)])
                        (report t ++ [(video_file, Failed e)])
                  end, s').
Proof.
  intros Hfuel Hout Hfree.
  destruct (conversion_alone bw lang fuel Hfuel video_file out s
              (output_file_for_truthy _ _ _ _ Hout)) as (r & s' & l & Hrun & _).
  exists r, s'. split; [exact Hrun|].
  unfold process, try_except.
  rewrite bind_run. unfold lift at 1. rewrite Hout.
  rewrite bind_run. unfold path_exists at 1.
  rewrite bool_decide_eq_false_2
    by (rewrite Hfree; intros [? ?]; discriminate).
  rewrite bind_run. unfold ret at 1. cbn [negb].
  rewrite bind_run. rewrite bind_run in Hrun.
  destruct (init video_file (Some out) lang s) as [[[c|e] s0]|].
  - rewrite bind_run, Hrun. destruct r; reflexivity.
  - injection Hrun as <- <-. reflexivity.
  - discriminate Hrun.
Qed.

Lemma batch_counts_what_convert_returns_witness :
  process (calm_batch talk_video []) None "videos" "en-US" 2 no_tally
    "videos/missing.mp4" (disk_with "videos/a.mp4")
  = Some (Ok (mk_tally 0 1
                [("missing.mp4", "Video file not found: videos/missing.mp4")]
                [("videos/missing.mp4",
                  Failed (FileNotFoundError
                            "Video file not found: videos/missing.mp4"))]),
          disk_with "videos/a.mp4")
  /\ exists s',
       process (calm_batch talk_video []) None "videos" "en-US" 2 no_tally
         "videos/a.mp4" (disk_with "videos/a.mp4")
       = Some (Ok (mk_tally 1 0 [] [("videos/a.mp4", Converted "videos/a.docx")]),
               s').
Proof.
  split.
  - destruct (batch_counts_what_convert_returns (calm_batch talk_video []) None
                "videos" "en-US" 2 no_tally "videos/missing.mp4"
                "videos/missing.docx" (disk_with "videos/a.mp4"))
      as (r & s' & Hrun & Hprocess).
    + apply enough_fuel_calm.
    + reflexivity.
    + reflexivity.
    + vm_compute in Hrun. injection Hrun as <- <-. exact Hprocess.
  - destruct (batch_counts_what_convert_returns (calm_batch talk_video []) None
                "videos" "en-US" 2 no_tally "videos/a.mp4"
                "videos/a.docx" (disk_with "videos/a.mp4"))
      as (r & s' & Hrun & Hprocess).
    + apply enough_fuel_calm.
    + reflexivity.
    + reflexivity.
    + exists s'. destruct r as [x|e]; [exact Hprocess|].
      vm_compute in Hrun. discriminate Hrun.
Defined.
End BatchExtras.
